(** * The perceptron cell of the AIPND notebook

    A shallow embedding of the four functions of the notebook's perceptron
    cell ([stepFunction], [prediction], [perceptronStep] and
    [trainPerceptronAlgorithm]) and the properties its specification
    states about them.

    Numbers are IEEE 754 binary64 values, as the entries of the notebook's
    numpy arrays and its Python floats are: Rocq's primitive floats compute
    with the same rounding.  The arrays [X], [y] and [W] live in a store
    that the functions read and, for [W], update in place; an exception
    leaves the store as it was when it was raised.

    The one computation the cell leaves to numpy's compiled code, the
    inner product inside [np.matmul], is a parameter of the development:
    which products it fuses with additions and in which order it sums
    depends on the build of numpy, and no statement depends on it.  The
    runs at the end of the file use one such inner product, on operands
    where rounding plays no part. *)

From Stdlib Require Import Floats.PrimFloat Floats.SpecFloat Floats.FloatOps.
From Stdlib Require Import Floats.FloatAxioms ZArith List Lia Bool.
From Stdlib Require Import Numbers.Cyclic.Int63.Uint63.
Import ListNotations.

Set Warnings "-inexact-float".

(** ** Python values, exceptions and the store *)

Module Py.

(** The exceptions the cell can meet.  [ValueError_matmul] is the
    [ValueError] of [np.matmul] on operands whose core dimensions differ,
    [ValueError_empty] the [ValueError] of [min]/[max] on an empty
    sequence.  [ZeroDivisionError] is Python's error for a zero divisor of
    a built-in number; no operation below raises it (numpy's float64
    division follows IEEE 754), it is listed so that statements can speak
    about it. *)
Inductive exn : Set :=
| ValueError_matmul
| ValueError_empty
| IndexError
| ZeroDivisionError.

Inductive outcome (A : Type) : Type :=
| Ret (a : A)
| Raise (e : exn).
Arguments Ret {A} a.
Arguments Raise {A} e.

(** The global generator of [np.random]: the stream of draws fixed by the
    seed, and how many of them were consumed. *)
Record generator : Type := mkGen { draws : nat -> float; consumed : nat }.

(** The store: the array [X] of shape (m, n) as its rows, the array [y]
    of shape (m,), the array [W] of shape (n, 1) as the entries [W[k][0]],
    and the generator.  The three arrays are distinct objects. *)
Record store : Type := mkStore {
  arrX : list (list float);
  arry : list float;
  arrW : list float;
  gen  : generator
}.

Definition with_W (w : list float) (s : store) : store :=
  mkStore (arrX s) (arry s) w (gen s).

Definition with_gen (g : generator) (s : store) : store :=
  mkStore (arrX s) (arry s) (arrW s) g.

(** Computations: a result or an exception, and the store they leave. *)
Definition M (A : Type) : Type := store -> outcome A * store.

Definition ret {A} (a : A) : M A := fun s => (Ret a, s).
Definition bind {A B} (c : M A) (k : A -> M B) : M B :=
  fun s => match c s with
           | (Ret a, s') => k a s'
           | (Raise e, s') => (Raise e, s')
           end.
Definition lift {A} (o : outcome A) : M A := fun s => (o, s).

Definition obind {A B} (o : outcome A) (k : A -> outcome B) : outcome B :=
  match o with Ret a => k a | Raise e => Raise e end.

(** [a[k]] for [0 <= k]: [IndexError] out of range. *)
Definition index {A} (l : list A) (k : nat) : outcome A :=
  match nth_error l k with Some a => Ret a | None => Raise IndexError end.

(** [l] with its entry [k] replaced (no change out of range; the callers
    below have read entry [k] before). *)
Fixpoint replace {A} (k : nat) (v : A) (l : list A) : list A :=
  match l, k with
  | [], _ => []
  | _ :: t, O => v :: t
  | a :: t, S k' => a :: replace k' v t
  end.

(** A Python [int] used where numpy wants a float64 (exact below 2^53). *)
Definition float_of_int (z : Z) : float :=
  if (z <? 0)%Z then PrimFloat.opp (of_uint63 (Uint63.of_Z (- z)))
  else of_uint63 (Uint63.of_Z z).

End Py.
Import Py.

Declare Scope py_scope.
Delimit Scope py_scope with py.
Notation "x <- c ;; k" := (bind c (fun x => k))
  (at level 61, c at next level, right associativity) : py_scope.
Notation "c ;;; k" := (bind c (fun _ => k))
  (at level 61, right associativity) : py_scope.
Open Scope py_scope.
Open Scope float_scope.

(** ** The store operations the cell uses *)

Definition len_X : M nat := fun s => (Ret (length (arrX s)), s).
Definition get_X (i : nat) : M (list float) := fun s => (index (arrX s) i, s).
Definition get_y (i : nat) : M float := fun s => (index (arry s) i, s).
Definition read_X : M (list (list float)) := fun s => (Ret (arrX s), s).
Definition read_W : M (list float) := fun s => (Ret (arrW s), s).
Definition get_W (k : nat) : M float := fun s => (index (arrW s) k, s).
Definition set_W (k : nat) (v : float) : M unit :=
  fun s => (Ret tt, with_W (replace k v (arrW s)) s).
Definition bind_W (w : list float) : M unit := fun s => (Ret tt, with_W w s).

(** [np.random.rand]: the next draw of the global generator. *)
Definition rand : M float :=
  fun s => let g := gen s in
           (Ret (draws g (consumed g)),
            with_gen (mkGen (draws g) (S (consumed g))) s).

(** ** numpy and built-in helpers *)

(** One inner product among those [np.matmul] may run: every product
    rounded to binary64 and accumulated from the left.  It is not claimed
    to be the one a given build of numpy runs (a build may fuse each
    product with the addition that follows, or sum in lanes); the closed
    runs at the end of the file instantiate the parameter with it, on
    operands whose products and partial sums are exactly representable. *)
Fixpoint accumulate (X W : list float) (acc : float) : float :=
  match X, W with
  | x :: X', w :: W' => accumulate X' W' (acc + x * w)
  | _, _ => acc
  end.

Definition rounded_dot (X W : list float) : float := accumulate X W 0.

(** [X.T[k]]: column [k] of [X].  An array without rows is taken to have
    the shape (0, 2) of the notebook's data, so its columns 0 and 1 exist
    and are empty. *)
Fixpoint column (k : nat) (X : list (list float)) : outcome (list float) :=
  match X with
  | [] => Ret []
  | r :: X' => obind (index r k) (fun v =>
               obind (column k X') (fun c => Ret (v :: c)))
  end.

(** The built-in [min] and [max] over a sequence: the first item, replaced
    by every later item that compares [<] (resp. [>]) to it. *)
Definition py_min (l : list float) : outcome float :=
  match l with
  | [] => Raise ValueError_empty
  | a :: t => Ret (fold_left (fun m v => if v <? m then v else m) t a)
  end.

Definition py_max (l : list float) : outcome float :=
  match l with
  | [] => Raise ValueError_empty
  | a :: t => Ret (fold_left (fun m v => if m <? v then v else m) t a)
  end.

(** ** The dot product in the specification's words

    "The dot product of point and weights, plus bias", exactly.  Every
    finite binary64 value is a whole number of units 2^-1074, so the exact
    sum is a whole number of units 2^-2148; [None] stands for an operand
    that is not finite. *)





(** ** The cell *)

Section Cell.

(** The entry [np.matmul(X, W)[0]] as numpy's inner-product code computes
    it from the coordinates of a point and the rows of [W], for operands
    of equal length.  numpy is not part of the repository and its kernel
    differs between builds (fused multiply-add, vector lanes), so it is a
    parameter: every statement of this section holds for each kernel. *)
Variable kernel : list float -> list float -> float.

(** [np.matmul(X, W)] for [X] of shape (n,) and [W] of shape (n', 1): the
    single entry of the result of shape (1,), [ValueError] when [n <> n']. *)
Definition matmul (X W : list float) : outcome float :=
  if Nat.eqb (length X) (length W) then Ret (kernel X W)
  else Raise ValueError_matmul.

(** [def stepFunction(t): if t >= 0: return 1; return 0] *)
Definition stepFunction (t : float) : Z :=
  if 0 <=? t then 1%Z else 0%Z.

(** [def prediction(X, W, b): return stepFunction((np.matmul(X,W)+b)[0])] *)
Definition prediction (X W : list float) (b : float) : outcome Z :=
  obind (matmul X W) (fun t => Ret (stepFunction (t + b))).

(** [prediction(X[i], W, b)], the call of line 154, on the arrays of the
    store. *)
Definition call_prediction (i : nat) (b : float) : M Z :=
  Xi <- get_X i ;;
  W <- read_W ;;
  lift (prediction Xi W b).

(** [W[k] += X[i][j]*learn_rate]: the target [W[k]] is read first, then the
    right-hand side is evaluated, then the sum is stored. *)
Definition iadd_W (k i j : nat) (learn_rate : float) : M unit :=
  w <- get_W k ;;
  Xi <- get_X i ;;
  x <- lift (index Xi j) ;;
  set_W k (w + x * learn_rate).

(** [W[k] -= X[i][j]*learn_rate] *)
Definition isub_W (k i j : nat) (learn_rate : float) : M unit :=
  w <- get_W k ;;
  Xi <- get_X i ;;
  x <- lift (index Xi j) ;;
  set_W k (w - x * learn_rate).

(** The body of the loop of [perceptronStep] at index [i]; the local [b]
    goes in and comes out. *)
Definition perceptronStep_body (learn_rate : float) (i : nat) (b : float)
  : M float :=
  y_hat <- call_prediction i b ;;
  yi <- get_y i ;;
  if (yi - float_of_int y_hat) =? 1 then
    iadd_W 0 i 0 learn_rate ;;;
    iadd_W 1 i 1 learn_rate ;;;
    ret (b + learn_rate)
  else
    yi' <- get_y i ;;
    if (yi' - float_of_int y_hat) =? -1 then
      isub_W 0 i 0 learn_rate ;;;
      isub_W 1 i 1 learn_rate ;;;
      ret (b - learn_rate)
    else ret b.

(** [for i in idx: b = body(i, b)] *)
Fixpoint for_each (idx : list nat) (body : nat -> float -> M float)
  (b : float) : M float :=
  match idx with
  | [] => ret b
  | i :: rest => b' <- body i b ;; for_each rest body b'
  end.

(** [def perceptronStep(X, y, W, b, learn_rate)]: [X], [y] and [W] are the
    arrays of the store; the result is [(W, b)], with [W] the contents of
    the updated array. *)
Definition perceptronStep (b learn_rate : float) : M (list float * float) :=
  n <- len_X ;;
  b' <- for_each (seq 0 n) (perceptronStep_body learn_rate) b ;;
  W <- read_W ;;
  ret (W, b').

(** [(-W[0]/W[1], -b/W[1])]; numpy's division by zero gives an infinity
    or NaN (and a warning), it raises nothing. *)
Definition boundary_line (b : float) : M (float * float) :=
  w0 <- get_W 0 ;;
  w1 <- get_W 1 ;;
  w1' <- get_W 1 ;;
  ret ((- w0) / w1, (- b) / w1').

(** The first four statements of [trainPerceptronAlgorithm]: the extremes
    of the two columns, then [W] bound to a fresh array of two draws and
    [b] set to a third draw plus [x_max]. *)
Definition train_init : M float :=
  X <- read_X ;;
  c <- lift (column 0 X) ;;
  x_min <- lift (py_min c) ;;
  c <- lift (column 0 X) ;;
  x_max <- lift (py_max c) ;;
  c <- lift (column 1 X) ;;
  y_min <- lift (py_min c) ;;
  c <- lift (column 1 X) ;;
  y_max <- lift (py_max c) ;;
  w0 <- rand ;;
  w1 <- rand ;;
  bind_W [w0; w1] ;;;
  r <- rand ;;
  ret (r + x_max).

(** The loop of [trainPerceptronAlgorithm], [n] epochs to go. *)
Fixpoint train_loop (n : nat) (learn_rate b : float)
  (boundary_lines : list (float * float)) : M (list (float * float)) :=
  match n with
  | O => ret boundary_lines
  | S n' =>
      Wb <- perceptronStep b learn_rate ;;
      l <- boundary_line (snd Wb) ;;
      train_loop n' learn_rate (snd Wb) (boundary_lines ++ [l])
  end.

(** [def trainPerceptronAlgorithm(X, y, learn_rate, num_epochs)];
    [range(num_epochs)] is empty for [num_epochs <= 0]. *)
Definition trainPerceptronAlgorithm (learn_rate : float) (num_epochs : Z)
  : M (list (float * float)) :=
  b <- train_init ;;
  train_loop (Z.to_nat num_epochs) learn_rate b [].

(** ** Calls on a dataset of (point, label) pairs *)

(** A dataset in the specification's form; its points are the rows of [X]
    and its labels the entries of [y]. *)
Definition dataset : Type := list (list float * float).

(** A generator all of whose draws are [v]. *)
Definition fixed_gen (v : float) : generator := mkGen (fun _ => v) 0.

Definition store_of (d : dataset) (W : list float) (g : generator) : store :=
  mkStore (map fst d) (map snd d) W g.

(** [step(dataset, weights, bias, learning_rate)]: the result of
    [perceptronStep] on the arrays of the dataset. *)
Definition step (d : dataset) (W : list float) (b learn_rate : float)
  : outcome (list float * float) :=
  fst (perceptronStep b learn_rate (store_of d W (fixed_gen 0))).

(** [train(dataset, learning_rate, num_epochs)] with the generator [g]. *)
Definition train (d : dataset) (g : generator) (learn_rate : float)
  (num_epochs : Z) : outcome (list (float * float)) :=
  fst (trainPerceptronAlgorithm learn_rate num_epochs (store_of d [] g)).

(** The weights and bias after initialisation and [k] epochs: [train_init]
    followed by [k] calls of [perceptronStep] in sequence. *)
Fixpoint steps (k : nat) (learn_rate b : float) : M float :=
  match k with
  | O => ret b
  | S k' =>
      b' <- steps k' learn_rate b ;;
      Wb <- perceptronStep b' learn_rate ;;
      ret (snd Wb)
  end.

Definition epochs_run (learn_rate : float) (k : nat)
  : M (list float * float) :=
  b0 <- train_init ;;
  b <- steps k learn_rate b0 ;;
  W <- read_W ;;
  ret (W, b).

Definition after_epochs (d : dataset) (g : generator) (learn_rate : float)
  (k : nat) : outcome (list float * float) :=
  fst (epochs_run learn_rate k (store_of d [] g)).

(** The weights and bias [train] starts its first epoch with. *)
Definition initial (d : dataset) (g : generator)
  : outcome (list float * float) := after_epochs d g 0 0.

(** ** The update rule in the specification's words *)

(** "[predicted = predict(point, weights, bias)]": the value [prediction]
    returns for a point of the dimension of the weights (lemma
    [prediction_matching]), the threshold of the entry of [np.matmul] plus
    the bias. *)
Definition spec_predict (point weights : list float) (bias : float) : Z :=
  if 0 <=? kernel point weights + bias then 1%Z else 0%Z.

Fixpoint zip_with (f : float -> float -> float) (l1 l2 : list float)
  : list float :=
  match l1, l2 with
  | a :: t1, b :: t2 => f a b :: zip_with f t1 t2
  | _, _ => l1
  end.

(** "[weights[i] += point[i] * learning_rate] for every dimension i;
    [bias += learning_rate]", and the symmetric decrease. *)
Definition spec_update (learning_rate : float) (wb : list float * float)
  (pl : list float * float) : list float * float :=
  let '(weights, bias) := wb in
  let '(point, label) := pl in
  let predicted := float_of_int (spec_predict point weights bias) in
  if label - predicted =? 1 then
    (zip_with (fun w x => w + x * learning_rate) weights point,
     bias + learning_rate)
  else if label - predicted =? -1 then
    (zip_with (fun w x => w - x * learning_rate) weights point,
     bias - learning_rate)
  else (weights, bias).

Definition spec_step (d : dataset) (weights : list float)
  (bias learning_rate : float) : list float * float :=
  fold_left (spec_update learning_rate) d (weights, bias).

(** The same rule applied to the first two dimensions only. *)
Definition zip_with2 (f : float -> float -> float) (l1 l2 : list float)
  : list float :=
  zip_with f (firstn 2 l1) l2 ++ skipn 2 l1.

Definition update01 (learning_rate : float) (wb : list float * float)
  (pl : list float * float) : list float * float :=
  let '(weights, bias) := wb in
  let '(point, label) := pl in
  let predicted := float_of_int (spec_predict point weights bias) in
  if label - predicted =? 1 then
    (zip_with2 (fun w x => w + x * learning_rate) weights point,
     bias + learning_rate)
  else if label - predicted =? -1 then
    (zip_with2 (fun w x => w - x * learning_rate) weights point,
     bias - learning_rate)
  else (weights, bias).

Definition step01 (d : dataset) (weights : list float)
  (bias learning_rate : float) : list float * float :=
  fold_left (update01 learning_rate) d (weights, bias).

(** Every point of [d] is predicted as labelled under [weights], [bias]. *)
Definition all_correct (d : dataset) (weights : list float) (bias : float)
  : Prop :=
  Forall (fun pl => snd pl = float_of_int (spec_predict (fst pl) weights bias))
    d.

(** ** Shapes *)

(** Every point has the dimension [n]. *)
Definition dim (n : nat) (d : dataset) : Prop :=
  Forall (fun pl => length (fst pl) = n) d.

(** ** Draws and epochs *)

(** The [k]-th draw still to come, and the generator after [k] draws. *)
Definition drawn (g : generator) (k : nat) : float :=
  draws g (k + consumed g).

Definition advance (g : generator) (k : nat) : generator :=
  mkGen (draws g) (k + consumed g).

(** One epoch as a function of the weights and bias, and the line read
    off a pair of weights and a bias. *)
Definition epoch (d : dataset) (lr : float) (wb : list float * float)
  : list float * float := step01 d (fst wb) (snd wb) lr.

Definition line_of (wb : list float * float) : float * float :=
  ((- nth 0 (fst wb) 0) / nth 1 (fst wb) 0, (- snd wb) / nth 1 (fst wb) 0).

(** ** What a computation may touch *)

(** [s'] differs from [s] at most in the entries 0 and 1 of [W]. *)
Definition frame (s s' : store) : Prop :=
  arrX s' = arrX s /\ arry s' = arry s /\ gen s' = gen s /\
  length (arrW s') = length (arrW s) /\
  forall i, (2 <= i)%nat -> nth_error (arrW s') i = nth_error (arrW s) i.

Definition framed {A} (c : M A) : Prop := forall s, frame s (snd (c s)).

(** [c] neither reads nor writes the generator. *)
Definition gen_blind {A} (c : M A) : Prop :=
  forall s g, c (with_gen g s) = (fst (c s), with_gen g (snd (c s))).

(** ** Lists and entries *)

Lemma replace_length {A} (k : nat) (v : A) (l : list A) :
  length (replace k v l) = length l.
Proof.
  revert k; induction l as [|a l IH]; intros [|k]; simpl; auto.
Qed.

Lemma replace_other {A} (k i : nat) (v : A) (l : list A) :
  i <> k -> nth_error (replace k v l) i = nth_error l i.
Proof.
  revert k i; induction l as [|a l IH]; intros [|k] [|i] Hne; simpl; auto;
    try congruence.
Qed.

(** ** Frames compose *)

Lemma frame_refl s : frame s s.
Proof. repeat split. Qed.

Lemma frame_trans s1 s2 s3 : frame s1 s2 -> frame s2 s3 -> frame s1 s3.
Proof.
  intros (HX & Hy & Hg & Hl & Hn) (HX' & Hy' & Hg' & Hl' & Hn').
  repeat split; try congruence.
  intros i Hi. rewrite Hn', Hn; auto.
Qed.

Lemma framed_ret {A} (a : A) : framed (ret a).
Proof. intro s; apply frame_refl. Qed.

Lemma framed_lift {A} (o : outcome A) : framed (lift o).
Proof. intro s; apply frame_refl. Qed.

Lemma framed_bind {A B} (c : M A) (k : A -> M B) :
  framed c -> (forall a, framed (k a)) -> framed (bind c k).
Proof.
  intros Hc Hk s. unfold bind.
  specialize (Hc s). destruct (c s) as [[a|e] s']; simpl in *; auto.
  eapply frame_trans; [exact Hc | apply Hk].
Qed.

Lemma framed_if {A} (t : bool) (c1 c2 : M A) :
  framed c1 -> framed c2 -> framed (if t then c1 else c2).
Proof. destruct t; auto. Qed.

Lemma framed_reads :
  framed len_X /\ framed read_X /\ framed read_W /\
  (forall i, framed (get_X i)) /\ (forall i, framed (get_y i)) /\
  (forall k, framed (get_W k)).
Proof. repeat split; intros; apply frame_refl. Qed.

Lemma framed_set_W k v : (k < 2)%nat -> framed (set_W k v).
Proof.
  intros Hk s; unfold set_W, frame; simpl. repeat split.
  - apply replace_length.
  - intros i Hi. apply replace_other. lia.
Qed.

Create HintDb framed.
#[local] Hint Resolve framed_ret framed_lift framed_if : framed.
#[local] Hint Extern 1 (framed len_X) => apply framed_reads : framed.
#[local] Hint Extern 1 (framed read_X) => apply framed_reads : framed.
#[local] Hint Extern 1 (framed read_W) => apply framed_reads : framed.
#[local] Hint Extern 1 (framed (get_X _)) => apply framed_reads : framed.
#[local] Hint Extern 1 (framed (get_y _)) => apply framed_reads : framed.
#[local] Hint Extern 1 (framed (get_W _)) => apply framed_reads : framed.
#[local] Hint Extern 1 (framed (set_W _ _)) => apply framed_set_W; lia : framed.
#[local] Hint Extern 2 (framed (bind _ _)) =>
  apply framed_bind; [ | intro ] : framed.

Lemma framed_iadd_W k i j lr : (k < 2)%nat -> framed (iadd_W k i j lr).
Proof. intro Hk. unfold iadd_W. auto 10 with framed. Qed.

Lemma framed_isub_W k i j lr : (k < 2)%nat -> framed (isub_W k i j lr).
Proof. intro Hk. unfold isub_W. auto 10 with framed. Qed.

#[local] Hint Extern 1 (framed (iadd_W _ _ _ _)) =>
  apply framed_iadd_W; lia : framed.
#[local] Hint Extern 1 (framed (isub_W _ _ _ _)) =>
  apply framed_isub_W; lia : framed.

Lemma framed_body lr i b : framed (perceptronStep_body lr i b).
Proof.
  unfold perceptronStep_body, call_prediction. auto 20 with framed.
Qed.

Lemma framed_for_each idx body b :
  (forall i b', framed (body i b')) -> framed (for_each idx body b).
Proof.
  intro Hb. revert b. induction idx as [|i idx IH]; intro b; simpl.
  - apply framed_ret.
  - apply framed_bind; auto.
Qed.

Lemma framed_perceptronStep b lr : framed (perceptronStep b lr).
Proof.
  unfold perceptronStep.
  apply framed_bind; [apply framed_reads | intro n].
  apply framed_bind; [apply framed_for_each, framed_body | intro b'].
  auto with framed.
Qed.

(** ** Computations that ignore the generator *)

Lemma blind_ret {A} (a : A) : gen_blind (ret a).
Proof. intros s g; reflexivity. Qed.

Lemma blind_lift {A} (o : outcome A) : gen_blind (lift o).
Proof. intros s g; reflexivity. Qed.

Lemma blind_bind {A B} (c : M A) (k : A -> M B) :
  gen_blind c -> (forall a, gen_blind (k a)) -> gen_blind (bind c k).
Proof.
  intros Hc Hk s g. unfold bind. rewrite Hc.
  destruct (c s) as [[a|e] s']; simpl; [apply Hk | reflexivity].
Qed.

Lemma blind_if {A} (t : bool) (c1 c2 : M A) :
  gen_blind c1 -> gen_blind c2 -> gen_blind (if t then c1 else c2).
Proof. destruct t; auto. Qed.

Lemma blind_store_ops :
  gen_blind len_X /\ gen_blind read_X /\ gen_blind read_W /\
  (forall i, gen_blind (get_X i)) /\ (forall i, gen_blind (get_y i)) /\
  (forall k, gen_blind (get_W k)) /\ (forall k v, gen_blind (set_W k v)).
Proof. repeat split; intros; intros s g; reflexivity. Qed.

Create HintDb blind.
#[local] Hint Resolve blind_ret blind_lift blind_if : blind.
#[local] Hint Extern 1 (gen_blind len_X) => apply blind_store_ops : blind.
#[local] Hint Extern 1 (gen_blind read_W) => apply blind_store_ops : blind.
#[local] Hint Extern 1 (gen_blind (get_X _)) => apply blind_store_ops : blind.
#[local] Hint Extern 1 (gen_blind (get_y _)) => apply blind_store_ops : blind.
#[local] Hint Extern 1 (gen_blind (get_W _)) => apply blind_store_ops : blind.
#[local] Hint Extern 1 (gen_blind (set_W _ _)) =>
  apply blind_store_ops : blind.
#[local] Hint Extern 2 (gen_blind (bind _ _)) =>
  apply blind_bind; [ | intro ] : blind.

Lemma blind_body lr i b : gen_blind (perceptronStep_body lr i b).
Proof.
  unfold perceptronStep_body, call_prediction, iadd_W, isub_W.
  auto 30 with blind.
Qed.

Lemma blind_for_each idx body b :
  (forall i b', gen_blind (body i b')) -> gen_blind (for_each idx body b).
Proof.
  intro Hb. revert b. induction idx as [|i idx IH]; intro b; simpl.
  - apply blind_ret.
  - apply blind_bind; auto.
Qed.

Lemma blind_perceptronStep b lr : gen_blind (perceptronStep b lr).
Proof.
  unfold perceptronStep.
  apply blind_bind; [apply blind_store_ops | intro n].
  apply blind_bind; [apply blind_for_each, blind_body | intro b'].
  auto with blind.
Qed.

Lemma store_eta s : mkStore (arrX s) (arry s) (arrW s) (gen s) = s.
Proof. destruct s; reflexivity. Qed.

(** ** The prediction *)

Lemma prediction_matching X W b :
  length X = length W -> prediction X W b = Ret (spec_predict X W b).
Proof.
  intro H. unfold prediction, matmul. rewrite H, Nat.eqb_refl. reflexivity.
Qed.

Lemma prediction_mismatch X W b :
  length X <> length W -> prediction X W b = Raise ValueError_matmul.
Proof.
  intro H. unfold prediction, matmul.
  apply Nat.eqb_neq in H. rewrite H. reflexivity.
Qed.

(** ** The step on well-shaped arrays *)

Lemma zip_with_length f l1 l2 : length (zip_with f l1 l2) = length l1.
Proof.
  revert l2; induction l1 as [|a l1 IH]; intros [|b l2]; simpl; auto.
Qed.

Lemma zip_with2_length f l1 l2 : length (zip_with2 f l1 l2) = length l1.
Proof.
  unfold zip_with2. rewrite length_app, zip_with_length.
  rewrite <- length_app, firstn_skipn. reflexivity.
Qed.

Lemma update01_length lr W b pl :
  length (fst (update01 lr (W, b) pl)) = length W.
Proof.
  destruct pl as [p l]. unfold update01.
  repeat match goal with |- context [if ?c then _ else _] => destruct c end;
    simpl; auto using zip_with2_length.
Qed.

Lemma index_map {A B} (f : A -> B) l i a :
  nth_error l i = Some a -> index (map f l) i = Ret (f a).
Proof. intro H. unfold index. rewrite nth_error_map, H. reflexivity. Qed.

Lemma body_update d W g lr i b p l :
  nth_error d i = Some (p, l) -> length p = length W ->
  (2 <= length W)%nat ->
  perceptronStep_body lr i b (store_of d W g)
  = (Ret (snd (update01 lr (W, b) (p, l))),
     store_of d (fst (update01 lr (W, b) (p, l))) g).
Proof.
  intros Hi Hp HW.
  pose proof (index_map fst d i _ Hi) as HX.
  pose proof (index_map snd d i _ Hi) as Hy. simpl in HX, Hy.
  destruct W as [|w0 [|w1 W]]; simpl in HW; try lia.
  destruct p as [|p0 [|p1 p]]; simpl in Hp; try lia.
  unfold perceptronStep_body, call_prediction, update01, iadd_W, isub_W,
    bind, get_X, get_y, read_W, lift, get_W, set_W, ret, store_of in *;
    simpl arrX; simpl arry; simpl arrW.
  rewrite HX. cbv beta iota.
  rewrite prediction_matching by (simpl; lia). cbv beta iota.
  simpl arry. rewrite Hy.
  destruct (l - float_of_int _ =? 1) eqn:E1.
  - simpl. rewrite HX. simpl. rewrite HX. reflexivity.
  - simpl. rewrite Hy. destruct (l - float_of_int _ =? -1) eqn:E2.
    + simpl. rewrite HX. simpl. rewrite HX. reflexivity.
    + reflexivity.
Qed.

Lemma for_each_update d g lr n :
  (2 <= n)%nat -> dim n d ->
  forall suf pre W b,
    d = pre ++ suf -> length W = n ->
    for_each (seq (length pre) (length suf)) (perceptronStep_body lr) b
      (store_of d W g)
    = (Ret (snd (fold_left (update01 lr) suf (W, b))),
       store_of d (fst (fold_left (update01 lr) suf (W, b))) g).
Proof.
  intros Hn Hd. induction suf as [|[p l] suf IH]; intros pre W b Hsplit HW.
  - reflexivity.
  - assert (Hi : nth_error d (length pre) = Some (p, l)).
    { rewrite Hsplit, nth_error_app2, Nat.sub_diag by lia. reflexivity. }
    assert (Hp : length p = length W).
    { unfold dim in Hd. rewrite Forall_forall in Hd.
      rewrite HW. apply (Hd (p, l)). eapply nth_error_In; eauto. }
    simpl length. simpl seq. simpl for_each. unfold bind at 1.
    rewrite (body_update d W g lr _ b p l Hi Hp) by lia.
    cbn [fold_left].
    pose proof (update01_length lr W b (p, l)) as HL.
    destruct (update01 lr (W, b) (p, l)) as [W' b'] eqn:EU. simpl fst in *.
    simpl snd.
    specialize (IH (pre ++ [(p, l)]) W' b').
    rewrite length_app, Nat.add_1_r in IH.
    apply IH; [ rewrite <- app_assoc; exact Hsplit | congruence ].
Qed.

Lemma step01_length d lr : forall W b,
  length (fst (step01 d W b lr)) = length W.
Proof.
  unfold step01. induction d as [|pl d IH]; intros W b; cbn [fold_left]; auto.
  pose proof (update01_length lr W b pl) as HL.
  destruct (update01 lr (W, b) pl) as [W' b']. rewrite IH. exact HL.
Qed.

Lemma perceptronStep_step01 d W g b lr :
  (2 <= length W)%nat -> dim (length W) d ->
  perceptronStep b lr (store_of d W g)
  = (Ret (step01 d W b lr), store_of d (fst (step01 d W b lr)) g).
Proof.
  intros HW Hd. unfold perceptronStep, bind at 1, len_X.
  simpl arrX. rewrite length_map. unfold bind at 1.
  pose proof (for_each_update d g lr (length W) HW Hd d [] W b eq_refl
    eq_refl) as HF.
  cbn [length] in HF. rewrite HF.
  unfold step01. unfold bind, read_W, ret. simpl.
  destruct (fold_left _ _ _); reflexivity.
Qed.

Lemma zip_with2_short f W p :
  (length W <= 2)%nat -> zip_with2 f W p = zip_with f W p.
Proof.
  intro H. unfold zip_with2.
  rewrite firstn_all2, skipn_all2 by lia. apply app_nil_r.
Qed.

Lemma update01_spec lr W b pl :
  (length W <= 2)%nat -> update01 lr (W, b) pl = spec_update lr (W, b) pl.
Proof.
  intro H. destruct pl as [p l]. unfold update01, spec_update.
  rewrite !zip_with2_short by exact H. reflexivity.
Qed.

Lemma step01_spec d lr : forall W b,
  (length W <= 2)%nat -> step01 d W b lr = spec_step d W b lr.
Proof.
  unfold step01, spec_step.
  induction d as [|pl d IH]; intros W b H; cbn [fold_left]; auto.
  rewrite <- update01_spec by exact H.
  pose proof (update01_length lr W b pl) as HL.
  destruct (update01 lr (W, b) pl) as [W' b']. apply IH. simpl in HL. lia.
Qed.

Lemma label_minus_itself :
  (float_of_int 1 - float_of_int 1 =? 1) = false /\
  (float_of_int 1 - float_of_int 1 =? -1) = false /\
  (float_of_int 0 - float_of_int 0 =? 1) = false /\
  (float_of_int 0 - float_of_int 0 =? -1) = false.
Proof. repeat split; vm_compute; reflexivity. Qed.

Lemma update01_correct lr W b p l :
  l = float_of_int (spec_predict p W b) -> update01 lr (W, b) (p, l) = (W, b).
Proof.
  intros ->. unfold update01.
  destruct label_minus_itself as (H1 & H2 & H3 & H4).
  unfold spec_predict. destruct (0 <=? kernel p W + b).
  - rewrite H1, H2. reflexivity.
  - rewrite H3, H4. reflexivity.
Qed.

Lemma step01_fixed d W b lr :
  all_correct d W b -> step01 d W b lr = (W, b).
Proof.
  unfold all_correct, step01. induction 1 as [|[p l] d Hpl Hd IH];
    cbn [fold_left]; auto.
  rewrite update01_correct by exact Hpl. exact IH.
Qed.

Lemma column_total k n d :
  (k < n)%nat -> dim n d ->
  exists c, column k (map fst d) = Ret c /\ length c = length d.
Proof.
  intros Hk. induction 1 as [|[p l] d Hp Hd (c & Hc & Hl)]; simpl.
  - exists []. auto.
  - simpl in Hp. unfold index.
    destruct (nth_error p k) as [v|] eqn:E.
    + simpl. rewrite Hc. simpl. exists (v :: c). simpl. auto.
    + apply nth_error_None in E. lia.
Qed.

Lemma py_min_total c : c <> [] -> exists v, py_min c = Ret v.
Proof. destruct c; [congruence | intros _; eexists; reflexivity]. Qed.

Lemma py_max_total c : c <> [] -> exists v, py_max c = Ret v.
Proof. destruct c; [congruence | intros _; eexists; reflexivity]. Qed.

Lemma train_init_run d W0 g n :
  d <> [] -> (2 <= n)%nat -> dim n d ->
  exists c x_max,
    column 0 (map fst d) = Ret c /\ py_max c = Ret x_max /\
    train_init (store_of d W0 g)
    = (Ret (drawn g 2 + x_max),
       store_of d [drawn g 0; drawn g 1] (advance g 3)).
Proof.
  intros Hne Hn Hd.
  destruct (column_total 0 n d ltac:(lia) Hd) as (c0 & Hc0 & Hl0).
  destruct (column_total 1 n d ltac:(lia) Hd) as (c1 & Hc1 & Hl1).
  assert (Hd0 : length d <> 0%nat) by (destruct d; simpl; congruence).
  assert (N0 : c0 <> []) by (intros ->; simpl in Hl0; lia).
  assert (N1 : c1 <> []) by (intros ->; simpl in Hl1; lia).
  destruct (py_min_total c0 N0) as (m0 & Hm0).
  destruct (py_max_total c0 N0) as (M0 & HM0).
  destruct (py_min_total c1 N1) as (m1 & Hm1).
  destruct (py_max_total c1 N1) as (M1 & HM1).
  exists c0, M0. repeat split; auto.
  unfold train_init, bind, read_X, lift, rand, bind_W, ret. simpl.
  rewrite Hc0, Hm0, HM0, Hc1, Hm1, HM1. reflexivity.
Qed.

Lemma iter_shift {A} (f : A -> A) k x :
  Nat.iter k f (f x) = Nat.iter (S k) f x.
Proof. symmetry. apply Nat.iter_succ_r. Qed.

Lemma epochs_length d lr k W b :
  length (fst (Nat.iter k (epoch d lr) (W, b))) = length W.
Proof.
  induction k as [|k IH]; simpl; auto.
  unfold epoch at 1. rewrite step01_length. exact IH.
Qed.

Lemma steps_run d g lr k W b :
  (2 <= length W)%nat -> dim (length W) d ->
  steps k lr b (store_of d W g)
  = (Ret (snd (Nat.iter k (epoch d lr) (W, b))),
     store_of d (fst (Nat.iter k (epoch d lr) (W, b))) g).
Proof.
  intros HW Hd. induction k as [|k IH]; [reflexivity|].
  cbn [steps]. unfold bind at 1. rewrite IH. unfold bind at 1.
  pose proof (epochs_length d lr k W b) as HL.
  rewrite perceptronStep_step01 by (rewrite HL; assumption).
  reflexivity.
Qed.

Lemma boundary_line_run d g b w0 w1 rest :
  boundary_line b (store_of d (w0 :: w1 :: rest) g)
  = (Ret ((- w0) / w1, (- b) / w1), store_of d (w0 :: w1 :: rest) g).
Proof. reflexivity. Qed.

Lemma train_loop_run d g lr n : forall W b acc,
  (2 <= length W)%nat -> dim (length W) d ->
  train_loop n lr b acc (store_of d W g)
  = (Ret (acc ++ map (fun k => line_of (Nat.iter (S k) (epoch d lr) (W, b)))
                   (seq 0 n)),
     store_of d (fst (Nat.iter n (epoch d lr) (W, b))) g).
Proof.
  induction n as [|n IH]; intros W b acc HW Hd.
  - simpl. rewrite app_nil_r. reflexivity.
  - cbn [train_loop]. unfold bind at 1.
    rewrite perceptronStep_step01 by assumption.
    pose proof (step01_length d lr W b) as HL.
    change (step01 d W b lr) with (epoch d lr (W, b)) in *.
    destruct (epoch d lr (W, b)) as [W1 b1] eqn:E1. simpl fst in *.
    simpl snd. unfold bind at 1.
    destruct W1 as [|w0 [|w1 rest]]; simpl in HL; try lia.
    rewrite boundary_line_run.
    rewrite IH; [ | simpl; lia | cbn [length]; rewrite HL; assumption ].
    rewrite <- app_assoc. simpl app.
    rewrite <- seq_shift, map_map.
    f_equal.
    + f_equal. f_equal. cbn [map seq].
      f_equal.
      * simpl. rewrite E1. reflexivity.
      * apply map_ext. intro k. rewrite <- E1, iter_shift. reflexivity.
    + rewrite <- E1, iter_shift. reflexivity.
Qed.

(** ** Initialisation and shape errors *)

Lemma train_init_inv s b0 s' :
  train_init s = (Ret b0, s') ->
  exists c x_max,
    column 0 (arrX s) = Ret c /\ py_max c = Ret x_max /\
    b0 = drawn (gen s) 2 + x_max /\
    s' = mkStore (arrX s) (arry s) [drawn (gen s) 0; drawn (gen s) 1]
           (advance (gen s) 3).
Proof.
  unfold train_init, bind, read_X, lift, rand, bind_W, ret.
  destruct (column 0 (arrX s)) as [c0|e] eqn:E0; [|discriminate].
  destruct (py_min c0) as [m0|e]; [|discriminate].
  destruct (py_max c0) as [M0|e] eqn:EM; [|discriminate].
  destruct (column 1 (arrX s)) as [c1|e]; [|discriminate].
  destruct (py_min c1) as [m1|e]; [|discriminate].
  destruct (py_max c1) as [M1|e]; [|discriminate].
  simpl. intro H. inversion H; subst.
  exists c0, M0. repeat split; auto.
Qed.

Lemma for_each_app l1 l2 body b s :
  for_each (l1 ++ l2) body b s
  = bind (for_each l1 body b) (fun b' => for_each l2 body b') s.
Proof.
  revert b s. induction l1 as [|i l1 IH]; intros b s; simpl.
  - reflexivity.
  - unfold bind.
    destruct (body i b s) as [[b'|e] s1]; [rewrite IH | ]; reflexivity.
Qed.

Lemma body_mismatch lr i b s p :
  nth_error (arrX s) i = Some p -> length p <> length (arrW s) ->
  perceptronStep_body lr i b s = (Raise ValueError_matmul, s).
Proof.
  intros Hi Hp.
  unfold perceptronStep_body, call_prediction, bind, get_X, read_W, lift,
    index.
  rewrite Hi, prediction_mismatch by exact Hp. reflexivity.
Qed.

Lemma step_mismatch s b lr k p b1 s1 :
  for_each (seq 0 k) (perceptronStep_body lr) b s = (Ret b1, s1) ->
  nth_error (arrX s) k = Some p ->
  length p <> length (arrW s1) ->
  perceptronStep b lr s = (Raise ValueError_matmul, s1).
Proof.
  intros Hpre Hk Hp.
  assert (Hlt : (k < length (arrX s))%nat)
    by (apply nth_error_Some; congruence).
  assert (HX : arrX s1 = arrX s).
  { pose proof (framed_for_each (seq 0 k) (perceptronStep_body lr) b
                  (framed_body lr) s) as HF.
    rewrite Hpre in HF. apply HF. }
  unfold perceptronStep, bind at 1, len_X. unfold bind at 1.
  replace (length (arrX s)) with (k + S (length (arrX s) - S k))%nat by lia.
  rewrite seq_app, for_each_app. unfold bind at 1. rewrite Hpre.
  simpl seq. simpl for_each. unfold bind at 1.
  rewrite (body_mismatch lr k b1 s1 p); [reflexivity | congruence | exact Hp].
Qed.

Lemma train_mismatch s lr n b0 s0 p :
  train_init s = (Ret b0, s0) ->
  nth_error (arrX s) 0 = Some p -> length p <> 2%nat -> (0 < n)%Z ->
  trainPerceptronAlgorithm lr n s = (Raise ValueError_matmul, s0).
Proof.
  intros Hinit Hp Hlen Hn.
  destruct (train_init_inv s b0 s0 Hinit) as (c & xm & _ & _ & _ & Hs0).
  unfold trainPerceptronAlgorithm, bind at 1. rewrite Hinit.
  destruct (Z.to_nat n) as [|m] eqn:En; [lia|].
  cbn [train_loop]. unfold bind at 1.
  rewrite (step_mismatch s0 b0 lr 0 p b0 s0); auto; subst s0; auto.
Qed.

Lemma prediction_total X W b :
  length X = length W ->
  exists v, prediction X W b = Ret v /\ (v = 0%Z \/ v = 1%Z).
Proof.
  intro H. rewrite prediction_matching by exact H.
  eexists; split; [reflexivity|].
  unfold spec_predict. destruct (0 <=? _); auto.
Qed.

(** ** Runs of the training loop *)

Lemma seq_entry a n k :
  (k < n)%nat -> nth_error (seq a n) k = Some (a + k)%nat.
Proof.
  revert a k. induction n as [|n IH]; intros a [|k] H; simpl; try lia.
  - f_equal. lia.
  - rewrite IH by lia. f_equal. lia.
Qed.

Lemma training_run d g lr :
  d <> [] -> dim 2 d ->
  exists wb0,
    length (fst wb0) = 2%nat /\
    (forall k,
        epochs_run lr k (store_of d [] g)
        = (Ret (Nat.iter k (epoch d lr) wb0),
           store_of d (fst (Nat.iter k (epoch d lr) wb0)) (advance g 3))) /\
    (forall n,
        trainPerceptronAlgorithm lr n (store_of d [] g)
        = (Ret (map (fun k => line_of (Nat.iter (S k) (epoch d lr) wb0))
                  (seq 0 (Z.to_nat n))),
           store_of d (fst (Nat.iter (Z.to_nat n) (epoch d lr) wb0))
             (advance g 3))).
Proof.
  intros Hne Hd.
  destruct (train_init_run d [] g 2 Hne (le_n 2) Hd)
    as (c & xm & _ & _ & Hinit).
  exists ([drawn g 0; drawn g 1], drawn g 2 + xm).
  split; [reflexivity|]. split.
  - intro k. unfold epochs_run, bind at 1. rewrite Hinit.
    unfold bind at 1. rewrite steps_run by (simpl; auto).
    unfold bind, read_W, ret. simpl.
    destruct (Nat.iter k _ _); reflexivity.
  - intro n. unfold trainPerceptronAlgorithm, bind at 1. rewrite Hinit.
    rewrite train_loop_run by (simpl; auto). reflexivity.
Qed.

Lemma two_entries (W : list float) :
  length W = 2%nat -> exists w0 w1, W = [w0; w1].
Proof.
  destruct W as [|w0 [|w1 [|w2 W]]]; simpl; try discriminate.
  intros _. eauto.
Qed.

Lemma training_lines (d : dataset) (g : generator) (lr : float) (n : Z) :
  d <> [] -> dim 2 d ->
  exists lines,
    train d g lr n = Ret lines /\
    length lines = Z.to_nat n /\
    (forall k, (k < Z.to_nat n)%nat ->
       exists w0 w1 b,
         after_epochs d g lr (S k) = Ret ([w0; w1], b) /\
         nth_error lines k = Some ((- w0) / w1, (- b) / w1)) /\
    snd (trainPerceptronAlgorithm lr n (store_of d [] g))
    = snd (epochs_run lr (Z.to_nat n) (store_of d [] g)).
Proof.
  intros Hne Hd.
  destruct (training_run d g lr Hne Hd) as (wb0 & H0 & Hep & Htr).
  eexists. unfold train. rewrite Htr. split; [reflexivity|].
  split; [rewrite length_map, length_seq; reflexivity|].
  split.
  - intros k Hk. unfold after_epochs. rewrite Hep.
    destruct (Nat.iter (S k) (epoch d lr) wb0) as [W b] eqn:E.
    assert (HW : length W = 2%nat).
    { destruct wb0 as [W0 b0].
      pose proof (epochs_length d lr (S k) W0 b0) as HL.
      rewrite E in HL. simpl in HL, H0. congruence. }
    destruct (two_entries W HW) as (w0 & w1 & ->).
    exists w0, w1, b. split; [reflexivity|].
    rewrite nth_error_map, seq_entry by exact Hk.
    cbn [option_map Nat.add]. rewrite E. reflexivity.
  - rewrite Hep. reflexivity.
Qed.

Lemma epochs_run_none lr s :
  snd (epochs_run lr 0 s) = snd (train_init s).
Proof.
  unfold epochs_run, bind, steps, read_W, ret.
  destruct (train_init s) as [[b|e] s']; reflexivity.
Qed.

Lemma initial_inv d g W b :
  initial d g = Ret (W, b) ->
  exists c x_max,
    column 0 (map fst d) = Ret c /\ py_max c = Ret x_max /\
    W = [drawn g 0; drawn g 1] /\ b = drawn g 2 + x_max.
Proof.
  unfold initial, after_epochs, epochs_run, bind at 1.
  destruct (train_init (store_of d [] g)) as [[b0|e] s'] eqn:E;
    [|discriminate].
  apply train_init_inv in E as (c & xm & Hc & Hm & Hb & Hs). subst s'.
  simpl. intro H. inversion H; subst.
  exists c, xm. auto.
Qed.

(** ** Division by zero in binary64

    A quotient whose divisor is a zero is an infinity or NaN, by the
    specification of the primitive operations. *)

Lemma zero_divisor_spec w :
  (w =? 0) = true -> exists s, Prim2SF w = S754_zero s.
Proof.
  rewrite FloatAxioms.eqb_spec.
  change (Prim2SF 0) with (S754_zero false).
  destruct (Prim2SF w) as [s|s| |s m e]; simpl; try discriminate; eauto.
  - destruct s; discriminate.
  - destruct s; discriminate.
Qed.

Lemma not_finite_spec f :
  (exists s, Prim2SF f = S754_infinity s) \/ Prim2SF f = S754_nan ->
  is_finite f = false.
Proof.
  unfold is_finite, is_nan, is_infinity.
  rewrite !FloatAxioms.eqb_spec, FloatAxioms.abs_spec.
  change (Prim2SF infinity) with (S754_infinity false).
  intros [[s ->] | ->]; [destruct s|]; reflexivity.
Qed.

Lemma div_by_zero_not_finite x w :
  (w =? 0) = true -> is_finite (x / w) = false.
Proof.
  intro H. destruct (zero_divisor_spec w H) as (s & Hw).
  apply not_finite_spec. rewrite FloatAxioms.div_spec, Hw. unfold SF64div.
  destruct (Prim2SF x) as [sx|sx| |sx m e]; simpl; eauto.
Qed.

(** ** NaN and zero in binary64 *)

Lemma nan_spec t : is_nan t = true -> Prim2SF t = S754_nan.
Proof.
  unfold is_nan. rewrite FloatAxioms.eqb_spec.
  destruct (Prim2SF t) as [s|s| |s m e]; unfold SFeqb; simpl; auto.
  - discriminate.
  - destruct s; discriminate.
  - destruct s; rewrite Z.compare_refl, Pos.compare_cont_refl; discriminate.
Qed.

Lemma spec_nan t : Prim2SF t = S754_nan -> is_nan t = true.
Proof.
  intro H. unfold is_nan. rewrite FloatAxioms.eqb_spec, H. reflexivity.
Qed.

Lemma stepFunction_nan t : is_nan t = true -> stepFunction t = 0%Z.
Proof.
  intro H. unfold stepFunction.
  rewrite FloatAxioms.leb_spec, (nan_spec t H).
  change (Prim2SF 0) with (S754_zero false). reflexivity.
Qed.

Lemma add_nan_r x t : is_nan t = true -> is_nan (x + t) = true.
Proof.
  intro H. apply spec_nan. rewrite FloatAxioms.add_spec, (nan_spec t H).
  unfold SF64add, SFadd. destruct (Prim2SF x); reflexivity.
Qed.

Lemma add_nan_l x t : is_nan t = true -> is_nan (t + x) = true.
Proof.
  intro H. apply spec_nan. rewrite FloatAxioms.add_spec, (nan_spec t H).
  reflexivity.
Qed.

Lemma sub_nan_l x t : is_nan t = true -> is_nan (t - x) = true.
Proof.
  intro H. apply spec_nan. rewrite FloatAxioms.sub_spec, (nan_spec t H).
  reflexivity.
Qed.


(** ** Floats as whole numbers of units *)




(** * The claims *)

(** C2, as amended.  For every dataset whose points have the dimension of
    the weights, at least 2, [step] handles the pairs in dataset order and
    for each pair applies the rule to the dimensions 0 and 1: when label -
    predicted is 1 it adds point[i] * learning_rate to weights[i] for i = 0
    and i = 1 and adds learning_rate to the bias, when it is -1 it
    subtracts the same, otherwise it changes nothing.  For weights of
    dimension 2 these are all the dimensions, so [step] is the rule of the
    specification.  When every point is predicted as labelled, [step]
    returns the weights and the bias unchanged.  "Predicted" is throughout
    what [prediction] returns for the point, the weights and the bias at
    hand. *)
Theorem step_rule (d : dataset) (W : list float) (b lr : float) :
  (2 <= length W)%nat -> dim (length W) d ->
  step d W b lr = Ret (step01 d W b lr) /\
  (length W = 2%nat -> step d W b lr = Ret (spec_step d W b lr)) /\
  (all_correct d W b -> step d W b lr = Ret (W, b)) /\
  (forall p W' b', length p = length W' ->
                   prediction p W' b' = Ret (spec_predict p W' b')).
Proof.
  intros HW Hd.
  assert (H : step d W b lr = Ret (step01 d W b lr)).
  { unfold step. rewrite perceptronStep_step01 by assumption. reflexivity. }
  split; [exact H|]. split; [|split].
  - intro H2. rewrite H, step01_spec by lia. reflexivity.
  - intro Hc. rewrite H, step01_fixed by exact Hc. reflexivity.
  - intros p W' b' Hp. apply prediction_matching. exact Hp.
Qed.

(** C3, as amended.  On a dataset of at least one point, all of dimension
    2: when the second weight is zero after epoch k+1, the line of that
    epoch is nevertheless produced, as the pair of IEEE quotients
    (-W[0]/W[1], -b/W[1]), neither of them finite, and no error is
    raised; [train] returns all [num_epochs] lines, each computed from the
    weights and bias after its own epoch, and leaves the store that
    [num_epochs] steps in sequence leave. *)
Theorem zero_weight_epoch (d : dataset) (g : generator) (lr : float) (n : Z)
  (k : nat) (w0 w1 b : float) :
  d <> [] -> dim 2 d -> (k < Z.to_nat n)%nat ->
  after_epochs d g lr (S k) = Ret ([w0; w1], b) ->
  (w1 =? 0) = true ->
  exists lines,
    train d g lr n = Ret lines /\
    length lines = Z.to_nat n /\
    nth_error lines k = Some ((- w0) / w1, (- b) / w1) /\
    is_finite ((- w0) / w1) = false /\ is_finite ((- b) / w1) = false /\
    (forall j, (j < Z.to_nat n)%nat ->
       exists v0 v1 c,
         after_epochs d g lr (S j) = Ret ([v0; v1], c) /\
         nth_error lines j = Some ((- v0) / v1, (- c) / v1)) /\
    snd (trainPerceptronAlgorithm lr n (store_of d [] g))
    = snd (epochs_run lr (Z.to_nat n) (store_of d [] g)).
Proof.
  intros Hne Hd Hk Hafter Hzero.
  destruct (training_lines d g lr n Hne Hd) as (lines & Ht & Hl & Hj & Hs).
  exists lines. repeat (split; [assumption|]).
  split; [|repeat (split; auto using div_by_zero_not_finite)].
  destruct (Hj k Hk) as (v0 & v1 & c & Ha & Hn).
  rewrite Hafter in Ha. inversion Ha; subst. exact Hn.
Qed.

(** C4.  [prediction] returns a value whenever the point has as many
    coordinates as [W] has rows (whatever the floats are, finite or not);
    when the two differ it raises the [ValueError] of [np.matmul].  That
    error leaves [perceptronStep] at the first point whose dimension
    differs, when the points before it were processed, and it leaves
    [trainPerceptronAlgorithm] in its first epoch when the first point's
    dimension is not the 2 of the initial weights: nothing catches it. *)
Theorem shape_mismatch_raised :
  (forall X W b, length X = length W ->
     exists v, prediction X W b = Ret v) /\
  (forall X W b, length X <> length W ->
     prediction X W b = Raise ValueError_matmul) /\
  (forall s b lr k p b1 s1,
     for_each (seq 0 k) (perceptronStep_body lr) b s = (Ret b1, s1) ->
     nth_error (arrX s) k = Some p ->
     length p <> length (arrW s1) ->
     perceptronStep b lr s = (Raise ValueError_matmul, s1)) /\
  (forall s lr n b0 s0 p,
     train_init s = (Ret b0, s0) ->
     nth_error (arrX s) 0 = Some p -> length p <> 2%nat -> (0 < n)%Z ->
     trainPerceptronAlgorithm lr n s = (Raise ValueError_matmul, s0)).
Proof.
  split; [|split; [|split]].
  - intros X W b H. destruct (prediction_total X W b H) as (v & Hv & _).
    exists v. exact Hv.
  - exact prediction_mismatch.
  - exact step_mismatch.
  - exact train_mismatch.
Qed.

(** C5, as amended.  From one state of the generator, two calls of
    [train] on any two datasets start with the same weights, the next two
    draws; the initial bias of each is the third draw plus the largest
    first coordinate of its own dataset, so the two biases agree when
    these maxima do. *)
Theorem initial_draws (d1 d2 : dataset) (g : generator)
  (W1 W2 : list float) (b1 b2 : float) :
  initial d1 g = Ret (W1, b1) -> initial d2 g = Ret (W2, b2) ->
  W1 = [drawn g 0; drawn g 1] /\ W2 = W1 /\
  exists c1 m1 c2 m2,
    column 0 (map fst d1) = Ret c1 /\ py_max c1 = Ret m1 /\
    column 0 (map fst d2) = Ret c2 /\ py_max c2 = Ret m2 /\
    b1 = drawn g 2 + m1 /\ b2 = drawn g 2 + m2 /\
    (m1 = m2 -> b1 = b2).
Proof.
  intros H1 H2.
  apply initial_inv in H1 as (c1 & m1 & Hc1 & Hm1 & -> & ->).
  apply initial_inv in H2 as (c2 & m2 & Hc2 & Hm2 & -> & ->).
  split; [reflexivity|]. split; [reflexivity|].
  exists c1, m1, c2, m2. repeat (split; [assumption || reflexivity|]).
  intros ->. reflexivity.
Qed.

(** C6, as amended.  For every dataset of at least one point, all points
    of dimension 2, every learning rate and every number of epochs (a
    negative one counts as 0), [train] returns exactly [num_epochs] lines;
    the k-th line is (-W[0]/W[1], -b/W[1]) for the weights and bias reached
    by initialisation and k calls of [perceptronStep] in sequence; the
    store it leaves is the one these [num_epochs] calls leave; and with
    [num_epochs = 0] the result is empty and the store is the one
    initialisation leaves. *)
Theorem train_epochs (d : dataset) (g : generator) (lr : float) (n : Z) :
  d <> [] -> dim 2 d ->
  exists lines,
    train d g lr n = Ret lines /\
    length lines = Z.to_nat n /\
    (forall k, (k < Z.to_nat n)%nat ->
       exists w0 w1 b,
         after_epochs d g lr (S k) = Ret ([w0; w1], b) /\
         nth_error lines k = Some ((- w0) / w1, (- b) / w1)) /\
    snd (trainPerceptronAlgorithm lr n (store_of d [] g))
    = snd (epochs_run lr (Z.to_nat n) (store_of d [] g)) /\
    (n = 0%Z ->
       lines = [] /\
       snd (trainPerceptronAlgorithm lr n (store_of d [] g))
       = snd (train_init (store_of d [] g))).
Proof.
  intros Hne Hd.
  destruct (training_lines d g lr n Hne Hd) as (lines & Ht & Hl & Hk & Hs).
  exists lines. repeat (split; [assumption|]).
  intros ->. split.
  - destruct lines; [reflexivity | discriminate].
  - rewrite Hs. apply epochs_run_none.
Qed.


(** C8.  Two calls of [perceptronStep] with the same bias and learning
    rate, on stores that hold the same [X], [y] and [W] and may differ in
    the state of the random generator, give the same outcome (the same
    floats, bit for bit, or the same exception) and leave the same
    weights; neither call touches the generator. *)
Theorem step_deterministic (s1 s2 : store) (b lr : float) :
  arrX s1 = arrX s2 -> arry s1 = arry s2 -> arrW s1 = arrW s2 ->
  fst (perceptronStep b lr s1) = fst (perceptronStep b lr s2) /\
  arrW (snd (perceptronStep b lr s1)) = arrW (snd (perceptronStep b lr s2)) /\
  gen (snd (perceptronStep b lr s1)) = gen s1 /\
  gen (snd (perceptronStep b lr s2)) = gen s2.
Proof.
  intros HX Hy HW.
  assert (E : s2 = with_gen (gen s2) s1).
  { unfold with_gen. rewrite HX, Hy, HW. symmetry. apply store_eta. }
  split; [|split; [|split]].
  - rewrite E, blind_perceptronStep. reflexivity.
  - rewrite E at 1. rewrite blind_perceptronStep. reflexivity.
  - apply (framed_perceptronStep b lr s1).
  - apply (framed_perceptronStep b lr s2).
Qed.

(** C9.  After every call of [perceptronStep], whether it returns or
    raises, the array of points and the array of labels are what they were
    before the call, in the same order. *)
Theorem step_leaves_dataset (s : store) (b lr : float) :
  arrX (snd (perceptronStep b lr s)) = arrX s /\
  arry (snd (perceptronStep b lr s)) = arry s.
Proof.
  destruct (framed_perceptronStep b lr s) as (HX & Hy & _). auto.
Qed.

(** C10.  Every call of [perceptronStep] leaves every entry of [W] at an
    index [i >= 2] as it was, and [W] keeps its length: only the entries
    0 and 1 are ever written, whatever the points hold at the other
    coordinates and however they are classified. *)
Theorem step_writes_two_entries (s : store) (b lr : float) (i : nat) :
  (2 <= i)%nat ->
  nth_error (arrW (snd (perceptronStep b lr s))) i = nth_error (arrW s) i /\
  length (arrW (snd (perceptronStep b lr s))) = length (arrW s).
Proof.
  intro Hi.
  destruct (framed_perceptronStep b lr s) as (_ & _ & _ & Hl & Hn). auto.
Qed.

(** * Further properties of the cell *)

(** ** What the loop body reads *)

Lemma body_local lr b i j s t :
  index (arrX s) i = index (arrX t) j ->
  index (arry s) i = index (arry t) j ->
  arrW s = arrW t ->
  fst (perceptronStep_body lr i b s) = fst (perceptronStep_body lr j b t) /\
  arrW (snd (perceptronStep_body lr i b s))
  = arrW (snd (perceptronStep_body lr j b t)).
Proof.
  destruct s as [Xs ys Ws gs], t as [Xt yt Wt gt]. simpl.
  intros HX Hy ->.
  unfold perceptronStep_body, call_prediction, iadd_W, isub_W, bind, get_X,
    get_y, read_W, lift, get_W, set_W, ret, with_W.
  simpl. rewrite ?HX.
  destruct (index Xt j) as [p|e] eqn:HXt; simpl; auto.
  destruct (prediction p Wt b) as [yh|e]; simpl; auto.
  rewrite ?Hy.
  destruct (index yt j) as [l|e] eqn:Hyt; simpl; auto.
  destruct (l - float_of_int yh =? 1); simpl;
    repeat (rewrite ?HX, ?HXt, ?Hy, ?Hyt; simpl).
  2: destruct (l - float_of_int yh =? -1); simpl; auto.
  all: destruct Wt as [|w0 [|w1 Wt]], p as [|x0 [|x1 p]]; simpl; auto;
    repeat (rewrite ?HX, ?HXt; simpl); auto.
Qed.

Lemma for_each_local lr n : forall a a' b s t,
  (forall k, (k < n)%nat ->
     index (arrX s) (a + k) = index (arrX t) (a' + k)) ->
  (forall k, (k < n)%nat ->
     index (arry s) (a + k) = index (arry t) (a' + k)) ->
  arrW s = arrW t ->
  fst (for_each (seq a n) (perceptronStep_body lr) b s)
  = fst (for_each (seq a' n) (perceptronStep_body lr) b t) /\
  arrW (snd (for_each (seq a n) (perceptronStep_body lr) b s))
  = arrW (snd (for_each (seq a' n) (perceptronStep_body lr) b t)).
Proof.
  induction n as [|n IH]; intros a a' b s t HX Hy HW; simpl.
  - auto.
  - assert (HX0 : index (arrX s) a = index (arrX t) a')
      by (rewrite <- (Nat.add_0_r a), <- (Nat.add_0_r a'); apply HX; lia).
    assert (Hy0 : index (arry s) a = index (arry t) a')
      by (rewrite <- (Nat.add_0_r a), <- (Nat.add_0_r a'); apply Hy; lia).
    destruct (body_local lr b a a' s t HX0 Hy0 HW) as (Ho & HW1).
    destruct (framed_body lr a b s) as (FX & Fy & _).
    destruct (framed_body lr a' b t) as (FX' & Fy' & _).
    unfold bind.
    destruct (perceptronStep_body lr a b s) as [[b1|e] s1];
      destruct (perceptronStep_body lr a' b t) as [[b1'|e'] t1];
      simpl in *; try discriminate.
    + inversion Ho; subst b1'. apply IH; auto.
      * intros k Hk. rewrite FX, FX'.
        replace (S a + k)%nat with (a + S k)%nat by lia.
        replace (S a' + k)%nat with (a' + S k)%nat by lia. apply HX. lia.
      * intros k Hk. rewrite Fy, Fy'.
        replace (S a + k)%nat with (a + S k)%nat by lia.
        replace (S a' + k)%nat with (a' + S k)%nat by lia. apply Hy. lia.
    + auto.
Qed.

Lemma index_app_l {A} (l1 l2 : list A) k :
  (k < length l1)%nat -> index (l1 ++ l2) k = index l1 k.
Proof. intro H. unfold index. rewrite nth_error_app1 by exact H. auto. Qed.

Lemma index_app_r {A} (l1 l2 : list A) k :
  index (l1 ++ l2) (length l1 + k) = index l2 k.
Proof.
  unfold index. rewrite nth_error_app2 by lia.
  replace (length l1 + k - length l1)%nat with k by lia. reflexivity.
Qed.

Lemma perceptronStep_loop b lr s :
  perceptronStep b lr s
  = match for_each (seq 0 (length (arrX s))) (perceptronStep_body lr) b s
    with
    | (Ret b', s') => (Ret (arrW s', b'), s')
    | (Raise e, s') => (Raise e, s')
    end.
Proof.
  unfold perceptronStep, bind, len_X, read_W, ret.
  destruct (for_each _ _ _ _) as [[b'|e] s']; reflexivity.
Qed.

Lemma step_append (d1 d2 : dataset) (W : list float) (b lr : float) :
  step (d1 ++ d2) W b lr
  = match step d1 W b lr with
    | Ret (W1, b1) => step d2 W1 b1 lr
    | Raise e => Raise e
    end.
Proof.
  unfold step. rewrite !perceptronStep_loop. set (g := fixed_gen 0).
  simpl arrX. rewrite !length_map, length_app, seq_app, for_each_app.
  unfold bind.
  destruct (for_each_local lr (length d1) 0 0 b
              (store_of (d1 ++ d2) W g) (store_of d1 W g)) as (Ho & HW1).
  { intros k Hk. simpl. rewrite map_app, index_app_l; auto.
    rewrite length_map; exact Hk. }
  { intros k Hk. simpl. rewrite map_app, index_app_l; auto.
    rewrite length_map; exact Hk. }
  { reflexivity. }
  pose proof (framed_for_each (seq 0 (length d1)) (perceptronStep_body lr) b
                (framed_body lr) (store_of (d1 ++ d2) W g)) as (FX & Fy & _).
  destruct (for_each (seq 0 (length d1)) (perceptronStep_body lr) b
              (store_of (d1 ++ d2) W g)) as [[b1|e] s1];
    destruct (for_each (seq 0 (length d1)) (perceptronStep_body lr) b
                (store_of d1 W g)) as [[b1'|e'] t1];
    simpl in Ho, HW1, FX, Fy; try discriminate.
  - inversion Ho; subst b1'. cbn [fst].
    rewrite perceptronStep_loop. simpl arrX. rewrite length_map.
    destruct (for_each_local lr (length d2) (0 + length d1) 0 b1
                s1 (store_of d2 (arrW t1) g)) as (Ho2 & HW2).
    { intros k Hk. rewrite FX. simpl.
      rewrite map_app, <- (length_map fst d1), index_app_r. reflexivity. }
    { intros k Hk. rewrite Fy. simpl.
      rewrite map_app, <- (length_map snd d1), index_app_r. reflexivity. }
    { exact HW1. }
    destruct (for_each (seq (0 + length d1) (length d2))
                (perceptronStep_body lr) b1 s1) as [[b2|e2] s2];
      destruct (for_each (seq 0 (length d2)) (perceptronStep_body lr) b1
                  (store_of d2 (arrW t1) g)) as [[b2'|e2'] t2];
      simpl in *; try discriminate.
    + inversion Ho2; subst. rewrite HW2. reflexivity.
    + inversion Ho2; reflexivity.
  - simpl. inversion Ho; reflexivity.
Qed.

(** X1.  [step] on no points returns the weights and bias it was given,
    and [step] on a concatenation is [step] on the first part followed by
    [step] on the second part from the weights and bias the first one
    returned; an exception of the first part is the exception of the
    whole. *)
Theorem step_concat (d1 d2 : dataset) (W : list float) (b lr : float) :
  step [] W b lr = Ret (W, b) /\
  step (d1 ++ d2) W b lr
  = match step d1 W b lr with
    | Ret (W1, b1) => step d2 W1 b1 lr
    | Raise e => Raise e
    end.
Proof. split; [reflexivity | apply step_append]. Qed.

Lemma step_cons (pl : list float * float) (d : dataset) W b lr :
  step (pl :: d) W b lr
  = match step [pl] W b lr with
    | Ret (W1, b1) => step d W1 b1 lr
    | Raise e => Raise e
    end.
Proof. apply (step_append [pl] d). Qed.

Lemma step_point_mismatch p l W b lr :
  length p <> length W -> step [(p, l)] W b lr = Raise ValueError_matmul.
Proof.
  intro H. unfold step. rewrite perceptronStep_loop. simpl. unfold bind.
  rewrite (body_mismatch lr 0 b _ p); auto.
Qed.

Lemma step_point_update p l W b lr :
  length p = length W -> (2 <= length W)%nat ->
  step [(p, l)] W b lr = Ret (update01 lr (W, b) (p, l)).
Proof.
  intros Hp HW.
  assert (Hd : dim (length W) [(p, l)]) by (repeat constructor; exact Hp).
  unfold step. rewrite perceptronStep_step01 by assumption. reflexivity.
Qed.

Lemma step_accepts (d : dataset) (W : list float) (b lr : float) :
  (2 <= length W)%nat ->
  ((exists r, step d W b lr = Ret r) <-> dim (length W) d) /\
  (forall e, step d W b lr = Raise e -> e = ValueError_matmul).
Proof.
  revert W b. induction d as [|[p l] d IH]; intros W b HW.
  - split; [split; [constructor | eexists; reflexivity] | discriminate].
  - rewrite step_cons.
    destruct (Nat.eq_dec (length p) (length W)) as [Hp|Hp].
    + rewrite step_point_update by assumption.
      pose proof (update01_length lr W b (p, l)) as HL.
      destruct (update01 lr (W, b) (p, l)) as [W1 b1]. simpl in HL.
      destruct (IH W1 b1 ltac:(lia)) as (Hiff & Hraise).
      rewrite HL in Hiff. split; [|exact Hraise].
      rewrite Hiff. split.
      * intro Hd. constructor; assumption.
      * intro Hd. inversion Hd; assumption.
    + rewrite step_point_mismatch by assumption. split.
      * split; [intros (r & Hr); discriminate|].
        intro Hd. inversion Hd; subst. contradiction.
      * intros e He. inversion He; reflexivity.
Qed.

Lemma store_frame_eq s s' :
  arrX s' = arrX s -> arry s' = arry s -> gen s' = gen s ->
  s' = with_W (arrW s') s.
Proof.
  destruct s, s'; simpl; intros; subst; reflexivity.
Qed.

Lemma loop_prefix_step (pre : dataset) (s : store) X' y' b lr :
  arrX s = map fst pre ++ X' -> arry s = map snd pre ++ y' ->
  match step pre (arrW s) b lr with
  | Ret (W1, b1) =>
      for_each (seq 0 (length pre)) (perceptronStep_body lr) b s
      = (Ret b1, with_W W1 s)
  | Raise e =>
      exists W1,
        for_each (seq 0 (length pre)) (perceptronStep_body lr) b s
        = (Raise e, with_W W1 s)
  end.
Proof.
  intros HX Hy. unfold step. rewrite perceptronStep_loop. simpl arrX.
  rewrite length_map.
  destruct (for_each_local lr (length pre) 0 0 b s
              (store_of pre (arrW s) (fixed_gen 0))) as (Ho & HW).
  { intros k Hk. rewrite HX. simpl. apply index_app_l.
    rewrite length_map; exact Hk. }
  { intros k Hk. rewrite Hy. simpl. apply index_app_l.
    rewrite length_map; exact Hk. }
  { reflexivity. }
  pose proof (framed_for_each (seq 0 (length pre)) (perceptronStep_body lr) b
                (framed_body lr) s) as (FX & Fy & Fg & _).
  destruct (for_each (seq 0 (length pre)) (perceptronStep_body lr) b s)
    as [o1 s1].
  destruct (for_each (seq 0 (length pre)) (perceptronStep_body lr) b
              (store_of pre (arrW s) (fixed_gen 0))) as [o2 t1].
  simpl in *. subst o2. rewrite (store_frame_eq s s1 FX Fy Fg), HW.
  destruct o1 as [b1|e]; simpl; eauto.
Qed.

Lemma step01_dim_returns d W b lr :
  (2 <= length W)%nat -> dim (length W) d ->
  step d W b lr = Ret (step01 d W b lr).
Proof.
  intros HW Hd. unfold step. rewrite perceptronStep_step01 by assumption.
  reflexivity.
Qed.

Lemma combine_maps {A B} (l1 : list A) (l2 : list B) :
  length l1 = length l2 ->
  map fst (combine l1 l2) = l1 /\ map snd (combine l1 l2) = l2.
Proof.
  revert l2. induction l1 as [|a l1 IH]; intros [|c l2] H; simpl in *;
    try discriminate; auto.
  destruct (IH l2) as (H1 & H2); [congruence|]. rewrite H1, H2. auto.
Qed.

(** On arrays with a label for every point, [perceptronStep] is [step] on
    the dataset of the points paired with their labels. *)
Lemma perceptronStep_as_step s b lr :
  (length (arrX s) <= length (arry s))%nat ->
  fst (perceptronStep b lr s)
  = step (combine (arrX s) (firstn (length (arrX s)) (arry s))) (arrW s)
      b lr.
Proof.
  intro Hy.
  set (d := combine (arrX s) (firstn (length (arrX s)) (arry s))).
  destruct (combine_maps (arrX s) (firstn (length (arrX s)) (arry s)))
    as (Hf & Hs); [rewrite length_firstn; lia|]. fold d in Hf, Hs.
  assert (Hd : length d = length (arrX s)).
  { unfold d. rewrite length_combine, length_firstn. lia. }
  pose proof (loop_prefix_step d s [] (skipn (length (arrX s)) (arry s))
                b lr) as Hloop.
  rewrite Hf, Hs, app_nil_r, firstn_skipn in Hloop.
  specialize (Hloop eq_refl eq_refl).
  rewrite perceptronStep_loop, <- Hd.
  destruct (step d (arrW s) b lr) as [[W1 b1]|e].
  - rewrite Hloop. reflexivity.
  - destruct Hloop as (W1 & Hloop). rewrite Hloop. reflexivity.
Qed.

(** X2.  On arrays with a label for every point and weights of at least two
    rows, [perceptronStep] returns exactly when every point has as many
    coordinates as the weights have rows, and the only exception it can
    raise is the [ValueError] of [np.matmul]. *)
Theorem step_returns_iff (s : store) (b lr : float) :
  (2 <= length (arrW s))%nat ->
  (length (arrX s) <= length (arry s))%nat ->
  ((exists r, fst (perceptronStep b lr s) = Ret r) <->
   Forall (fun p => length p = length (arrW s)) (arrX s)) /\
  (forall e, fst (perceptronStep b lr s) = Raise e -> e = ValueError_matmul).
Proof.
  intros HW Hy. rewrite (perceptronStep_as_step s b lr Hy).
  set (d := combine (arrX s) (firstn (length (arrX s)) (arry s))).
  destruct (combine_maps (arrX s) (firstn (length (arrX s)) (arry s)))
    as (Hf & _); [rewrite length_firstn; lia|]. fold d in Hf.
  destruct (step_accepts d (arrW s) b lr HW) as (Hiff & He).
  split; [|exact He].
  rewrite Hiff, <- Hf at 1. unfold dim. rewrite Forall_map. reflexivity.
Qed.

(** X3.  When [y] holds the labels of the first points only, and [step] on
    these labelled points returns the weights [W1], [perceptronStep] on
    the whole arrays processes the labelled points, then raises
    [IndexError] at the first point without a label (a point of the
    dimension of the weights); [W] keeps, in place, the updates made so
    far: it holds [W1]. *)
Theorem step_labels_short (d : dataset) (p : list float)
  (rest : list (list float)) (W W1 : list float) (g : generator)
  (b b1 lr : float) :
  step d W b lr = Ret (W1, b1) -> length p = length W ->
  perceptronStep b lr (mkStore (map fst d ++ p :: rest) (map snd d) W g)
  = (Raise IndexError,
     mkStore (map fst d ++ p :: rest) (map snd d) W1 g).
Proof.
  intros Hstep Hp.
  set (s := mkStore (map fst d ++ p :: rest) (map snd d) W g).
  pose proof (loop_prefix_step d s (p :: rest) [] b lr eq_refl
                (eq_sym (app_nil_r _))) as Hloop.
  simpl arrW in Hloop. rewrite Hstep in Hloop.
  assert (HL : length W1 = length W).
  { pose proof (framed_for_each (seq 0 (length d)) (perceptronStep_body lr)
                  b (framed_body lr) s) as (_ & _ & _ & Hlen & _).
    rewrite Hloop in Hlen. exact Hlen. }
  rewrite perceptronStep_loop. simpl arrX.
  rewrite length_app, length_map. simpl length.
  rewrite seq_app, for_each_app. unfold bind at 1. rewrite Hloop.
  simpl seq. simpl for_each. unfold bind at 1.
  assert (HXi : index (map fst d ++ p :: rest) (length d) = Ret p).
  { rewrite <- (Nat.add_0_r (length d)), <- (length_map fst d) at 1.
    rewrite index_app_r. reflexivity. }
  assert (Hyi : index (map snd d) (length d) = Raise IndexError).
  { unfold index.
    rewrite (proj2 (nth_error_None _ _)) by (rewrite length_map; lia).
    reflexivity. }
  unfold perceptronStep_body, call_prediction, bind, get_X, read_W, lift,
    get_y. simpl.
  rewrite HXi, prediction_matching by congruence. simpl.
  rewrite Hyi. reflexivity.
Qed.

Lemma step_point_correct p l W b lr :
  length p = length W -> l = float_of_int (spec_predict p W b) ->
  step [(p, l)] W b lr = Ret (W, b).
Proof.
  intros Hp ->. unfold step. rewrite perceptronStep_loop. simpl.
  unfold bind, perceptronStep_body, call_prediction, bind, get_X, read_W,
    lift, get_y. simpl.
  rewrite prediction_matching by exact Hp. simpl.
  destruct label_minus_itself as (H1 & H2 & H3 & H4).
  unfold spec_predict. destruct (0 <=? kernel p W + b).
  - rewrite H1. reflexivity.
  - rewrite H3. reflexivity.
Qed.

Lemma step_all_correct d W b lr :
  dim (length W) d -> all_correct d W b -> step d W b lr = Ret (W, b).
Proof.
  intros Hd Hc. induction d as [|[p l] d IH]; [reflexivity|].
  inversion Hd; subst. inversion Hc; subst. simpl in *.
  rewrite step_cons, step_point_correct by assumption. auto.
Qed.

(** X4.  With weights of a single row and points of one coordinate,
    [perceptronStep] passes the points predicted as labelled and raises
    [IndexError] at the first misclassified point, after it has already
    written [W[0]]: the store holds the half-applied update. *)
Theorem step_single_row (pre post : dataset) (x l w b lr : float)
  (g : generator) :
  dim 1 pre -> all_correct pre [w] b ->
  let d := pre ++ ([x], l) :: post in
  let diff := l - float_of_int (spec_predict [x] [w] b) in
  ((diff =? 1) = true ->
     perceptronStep b lr (store_of d [w] g)
     = (Raise IndexError, store_of d [w + x * lr] g)) /\
  ((diff =? 1) = false -> (diff =? -1) = true ->
     perceptronStep b lr (store_of d [w] g)
     = (Raise IndexError, store_of d [w - x * lr] g)).
Proof.
  intros Hd Hc d diff.
  set (s := store_of d [w] g).
  pose proof (loop_prefix_step pre s (map fst (([x], l) :: post))
                (map snd (([x], l) :: post)) b lr) as Hloop.
  simpl arrW in Hloop.
  rewrite (step_all_correct pre [w] b lr Hd Hc) in Hloop.
  specialize (Hloop (map_app _ _ _) (map_app _ _ _)).
  assert (HXi : index (arrX s) (length pre) = Ret [x]).
  { unfold s, d. simpl arrX. rewrite map_app.
    rewrite <- (Nat.add_0_r (length pre)), <- (length_map fst pre) at 1.
    rewrite index_app_r. reflexivity. }
  assert (Hyi : index (arry s) (length pre) = Ret l).
  { unfold s, d. simpl arry. rewrite map_app.
    rewrite <- (Nat.add_0_r (length pre)), <- (length_map snd pre) at 1.
    rewrite index_app_r. reflexivity. }
  assert (Hrun : forall o s',
             perceptronStep_body lr (length pre) b s = (Raise o, s') ->
             perceptronStep b lr s = (Raise o, s')).
  { intros o s' Hbody. rewrite perceptronStep_loop.
    unfold s at 1. simpl arrX. unfold d.
    rewrite length_map, length_app. simpl length.
    rewrite seq_app, for_each_app. unfold bind at 1. rewrite Hloop.
    simpl seq. simpl for_each. unfold bind at 1.
    change (with_W [w] s) with s. rewrite Hbody. reflexivity. }
  split.
  - intro H1. apply Hrun.
    unfold perceptronStep_body, call_prediction, iadd_W, bind, get_X, read_W,
      lift, get_y, get_W, set_W, ret.
    cbv beta. rewrite HXi. cbv beta iota.
    change (arrW s) with [w]. rewrite prediction_matching by reflexivity.
    cbv beta iota. rewrite Hyi. cbv beta iota. fold diff. rewrite H1.
    cbv beta iota. change (arrW s) with [w]. simpl index at 1.
    cbv beta iota. rewrite HXi. reflexivity.
  - intros H1 H2. apply Hrun.
    unfold perceptronStep_body, call_prediction, isub_W, bind, get_X, read_W,
      lift, get_y, get_W, set_W, ret.
    cbv beta. rewrite HXi. cbv beta iota.
    change (arrW s) with [w]. rewrite prediction_matching by reflexivity.
    cbv beta iota. rewrite Hyi. cbv beta iota. fold diff. rewrite H1.
    cbv beta iota. rewrite Hyi. cbv beta iota. fold diff. rewrite H2.
    cbv beta iota. change (arrW s) with [w]. simpl index at 1.
    cbv beta iota. rewrite HXi. reflexivity.
Qed.

(** ** Columns, extremes and initialisation *)

Lemma column_ok k X :
  Forall (fun r => (k < length r)%nat) X ->
  column k X = Ret (map (fun r => nth k r 0) X).
Proof.
  induction 1 as [|r X Hr HX IH]; simpl; [reflexivity|].
  unfold index. destruct (nth_error r k) as [v|] eqn:E.
  - simpl. rewrite IH. simpl. rewrite (nth_error_nth _ _ _ E). reflexivity.
  - apply nth_error_None in E. lia.
Qed.

Lemma column_short k X :
  Exists (fun r => (length r <= k)%nat) X -> column k X = Raise IndexError.
Proof.
  induction 1 as [r X Hr|r X HX IH]; simpl; unfold index.
  - rewrite (proj2 (nth_error_None r k) Hr). reflexivity.
  - destruct (nth_error r k); simpl; [rewrite IH|]; reflexivity.
Qed.

Lemma rows_dec k (X : list (list float)) :
  Forall (fun r => (k < length r)%nat) X \/
  Exists (fun r => (length r <= k)%nat) X.
Proof.
  induction X as [|r X [IH|IH]]; auto.
  destruct (le_lt_dec (length r) k); auto.
Qed.

Lemma column_ret k X c :
  column k X = Ret c ->
  Forall (fun r => (k < length r)%nat) X /\ c = map (fun r => nth k r 0) X.
Proof.
  intro H. destruct (rows_dec k X) as [HF|HE].
  - rewrite (column_ok k X HF) in H. inversion H. auto.
  - rewrite (column_short k X HE) in H. discriminate.
Qed.

Lemma py_max_in c v : py_max c = Ret v -> In v c.
Proof.
  destruct c as [|a t]; simpl; [discriminate|].
  intro H. inversion H; subst; clear H.
  revert a. induction t as [|x t IH]; intro a; simpl; auto.
  destruct (IH (if a <? x then x else a)) as [H|H]; auto.
  destruct (a <? x); auto.
Qed.

Lemma initial_run d g :
  d <> [] -> Forall (fun pl => (2 <= length (fst pl))%nat) d ->
  exists wb, initial d g = Ret wb.
Proof.
  intros Hne HF.
  assert (H0 : Forall (fun r => (0 < length r)%nat) (map fst d)).
  { apply Forall_map. eapply Forall_impl; [|exact HF]. simpl. intros; lia. }
  assert (H1 : Forall (fun r => (1 < length r)%nat) (map fst d)).
  { apply Forall_map. eapply Forall_impl; [|exact HF]. simpl. intros; lia. }
  unfold initial, after_epochs, epochs_run, train_init, bind, read_X, lift,
    rand, bind_W, ret, steps, read_W.
  simpl arrX. rewrite (column_ok 0 _ H0), (column_ok 1 _ H1).
  destruct d as [|[p l] d]; [congruence|]. simpl. eauto.
Qed.

Lemma train_initialises (d : dataset) (g : generator) :
  (exists wb, initial d g = Ret wb) <->
  d <> [] /\ Forall (fun pl => (2 <= length (fst pl))%nat) d.
Proof.
  split.
  - intros ([W b] & H). unfold initial, after_epochs, epochs_run in H.
    unfold bind at 1 in H.
    destruct (train_init (store_of d [] g)) as [[b0|e] s'] eqn:E;
      [|discriminate].
    clear H. revert E.
    unfold train_init, bind, read_X, lift. simpl arrX.
    destruct (column 0 (map fst d)) as [c0|e] eqn:E0; [|discriminate].
    destruct (py_min c0) as [m0|e] eqn:Em; [|discriminate].
    destruct (py_max c0) as [M0|e]; [|discriminate].
    destruct (column 1 (map fst d)) as [c1|e] eqn:E1; [|discriminate].
    intros _. apply column_ret in E1 as (HF & _).
    apply column_ret in E0 as (_ & ->). split.
    + intros ->. discriminate.
    + rewrite Forall_map in HF. eapply Forall_impl; [|exact HF].
      simpl. intros; lia.
  - intros (Hne & HF). apply initial_run; assumption.
Qed.

(** X5.  The bias [train] starts with is the third draw plus the first
    coordinate of one of the points of the dataset ([x_max] is attained). *)
Theorem initial_bias_from_point (d : dataset) (g : generator)
  (W : list float) (b : float) :
  initial d g = Ret (W, b) ->
  exists p l, In (p, l) d /\ b = drawn g 2 + nth 0 p 0.
Proof.
  intro H. apply initial_inv in H as (c & xm & Hc & Hm & _ & ->).
  apply column_ret in Hc as (_ & ->). apply py_max_in in Hm.
  rewrite map_map in Hm. apply in_map_iff in Hm as ([p l] & Hx & Hin).
  simpl in Hx. exists p, l. split; [exact Hin | congruence].
Qed.

Lemma train_init_fails (d : dataset) (W0 : list float) (g : generator)
  (lr : float) (n : Z) :
  d = [] \/ Exists (fun pl => (length (fst pl) < 2)%nat) d ->
  trainPerceptronAlgorithm lr n (store_of d W0 g)
  = (Raise (match d with [] => ValueError_empty | _ => IndexError end),
     store_of d W0 g).
Proof.
  intros [->|HE]; [reflexivity|].
  assert (Hne : d <> []) by (intros ->; inversion HE).
  assert (H1 : column 1 (map fst d) = Raise IndexError).
  { apply column_short. apply Exists_map.
    eapply Exists_impl; [|exact HE]. simpl. intros; lia. }
  unfold trainPerceptronAlgorithm, train_init, bind, read_X, lift.
  simpl arrX.
  destruct (rows_dec 0 (map fst d)) as [H0|H0].
  - rewrite (column_ok 0 _ H0), H1.
    destruct d as [|[p l] d]; [congruence|]. reflexivity.
  - rewrite (column_short 0 _ H0).
    destruct d as [|[p l] d]; [congruence|]. reflexivity.
Qed.

(** X6.  On a dataset without points [trainPerceptronAlgorithm] raises
    the [ValueError] of [min]; on a dataset with a point of fewer than two
    coordinates it raises [IndexError]; in both cases for every learning
    rate and number of epochs, before anything is drawn or written: the
    store is left as it was. *)
Theorem train_rejects (d : dataset) (W0 : list float) (g : generator)
  (lr : float) (n : Z) :
  d = [] \/ Exists (fun pl => (length (fst pl) < 2)%nat) d ->
  trainPerceptronAlgorithm lr n (store_of d W0 g)
  = (Raise (match d with [] => ValueError_empty | _ => IndexError end),
     store_of d W0 g).
Proof. intro H. exact (train_init_fails d W0 g lr n H). Qed.

(** ** The training loop and the store *)

Lemma framed_boundary_line b : framed (boundary_line b).
Proof.
  unfold boundary_line.
  repeat (apply framed_bind; [apply framed_reads | intro]).
  apply framed_ret.
Qed.

Lemma framed_train_loop n lr : forall b acc, framed (train_loop n lr b acc).
Proof.
  induction n as [|n IH]; intros b acc; simpl.
  - apply framed_ret.
  - apply framed_bind; [apply framed_perceptronStep | intro Wb].
    apply framed_bind; [apply framed_boundary_line | intro l]. apply IH.
Qed.

Lemma train_init_raise s e s' : train_init s = (Raise e, s') -> s' = s.
Proof.
  unfold train_init, bind, read_X, lift, rand, bind_W, ret.
  destruct (column 0 (arrX s)) as [c0|e0]; [|intro H; inversion H; auto].
  destruct (py_min c0) as [m0|e0]; [|intro H; inversion H; auto].
  destruct (py_max c0) as [M0|e0]; [|intro H; inversion H; auto].
  destruct (column 1 (arrX s)) as [c1|e0]; [|intro H; inversion H; auto].
  destruct (py_min c1) as [m1|e0]; [|intro H; inversion H; auto].
  destruct (py_max c1) as [M1|e0]; [|intro H; inversion H; auto].
  discriminate.
Qed.

Lemma train_store_shape (s : store) (lr : float) (n : Z) :
  arrX (snd (trainPerceptronAlgorithm lr n s)) = arrX s /\
  arry (snd (trainPerceptronAlgorithm lr n s)) = arry s /\
  match fst (train_init s) with
  | Raise e => trainPerceptronAlgorithm lr n s = (Raise e, s)
  | Ret _ =>
      gen (snd (trainPerceptronAlgorithm lr n s)) = advance (gen s) 3 /\
      length (arrW (snd (trainPerceptronAlgorithm lr n s))) = 2%nat
  end.
Proof.
  unfold trainPerceptronAlgorithm, bind.
  destruct (train_init s) as [[b0|e] s0] eqn:E; simpl fst.
  - apply train_init_inv in E as (c & xm & _ & _ & _ & ->).
    destruct (framed_train_loop (Z.to_nat n) lr b0 []
                (mkStore (arrX s) (arry s) [drawn (gen s) 0; drawn (gen s) 1]
                   (advance (gen s) 3))) as (HX & Hy & Hg & Hl & _).
    simpl in *. auto.
  - apply train_init_raise in E. subst s0. auto.
Qed.

(** X7.  [trainPerceptronAlgorithm] never writes [X] or [y].  When its
    initialisation raises, it raises the same exception and leaves the
    whole store as it was; otherwise, whatever the number of epochs and
    whether the epochs return or raise, it leaves the generator advanced
    by exactly three draws and [W] with two rows. *)
Theorem train_store (s : store) (lr : float) (n : Z) :
  arrX (snd (trainPerceptronAlgorithm lr n s)) = arrX s /\
  arry (snd (trainPerceptronAlgorithm lr n s)) = arry s /\
  match fst (train_init s) with
  | Raise e => trainPerceptronAlgorithm lr n s = (Raise e, s)
  | Ret _ =>
      gen (snd (trainPerceptronAlgorithm lr n s)) = advance (gen s) 3 /\
      length (arrW (snd (trainPerceptronAlgorithm lr n s))) = 2%nat
  end.
Proof.
  destruct (train_store_shape s lr n) as (HX & Hy & H).
  split; [exact HX | split; [exact Hy | exact H]].
Qed.

Lemma train_init_agree s t :
  arrX s = arrX t -> gen s = gen t -> arry s = arry t ->
  fst (train_init s) = fst (train_init t) /\
  (forall b, fst (train_init s) = Ret b ->
             snd (train_init s) = snd (train_init t)).
Proof.
  destruct s as [X y W g], t as [X' y' W' g']. simpl. intros <- <- <-.
  unfold train_init, bind, read_X, lift, rand, bind_W, ret. simpl.
  destruct (column 0 X) as [c0|e0]; [|split; [auto|discriminate]].
  destruct (py_min c0) as [m0|e0]; [|split; [auto|discriminate]].
  destruct (py_max c0) as [M0|e0]; [|split; [auto|discriminate]].
  destruct (column 1 X) as [c1|e0]; [|split; [auto|discriminate]].
  destruct (py_min c1) as [m1|e0]; [|split; [auto|discriminate]].
  destruct (py_max c1) as [M1|e0]; [|split; [auto|discriminate]].
  simpl. auto.
Qed.

Lemma train_agree s t lr n :
  arrX s = arrX t -> gen s = gen t -> arry s = arry t ->
  fst (trainPerceptronAlgorithm lr n s) = fst (trainPerceptronAlgorithm lr n t).
Proof.
  intros HX Hg Hy. destruct (train_init_agree s t HX Hg Hy) as (Ho & Hs).
  unfold trainPerceptronAlgorithm, bind.
  destruct (train_init s) as [[b0|e] s0], (train_init t) as [[b1|e1] t0];
    simpl in *; try discriminate.
  - inversion Ho; subst. rewrite (Hs b1 eq_refl). reflexivity.
  - inversion Ho; reflexivity.
Qed.

Lemma train_init_data d W0 g :
  d <> [] -> Forall (fun pl => (2 <= length (fst pl))%nat) d ->
  exists b0, fst (train_init (store_of d W0 g)) = Ret b0.
Proof.
  intros Hne HF.
  assert (H0 : Forall (fun r => (0 < length r)%nat) (map fst d)).
  { apply Forall_map. eapply Forall_impl; [|exact HF]. simpl. intros; lia. }
  assert (H1 : Forall (fun r => (1 < length r)%nat) (map fst d)).
  { apply Forall_map. eapply Forall_impl; [|exact HF]. simpl. intros; lia. }
  unfold train_init, bind, read_X, lift, rand, bind_W, ret.
  simpl arrX. rewrite (column_ok 0 _ H0), (column_ok 1 _ H1).
  destruct d as [|[p l] d]; [congruence|]. simpl. eauto.
Qed.

(** X8.  Two calls in a row share the generator: after a first call on a
    dataset that initialises, a second call on the store it left returns
    what a fresh call returns with the generator advanced by three
    draws. *)
Theorem train_twice (d : dataset) (g : generator) (lr1 lr2 : float)
  (n1 n2 : Z) :
  d <> [] -> Forall (fun pl => (2 <= length (fst pl))%nat) d ->
  fst (trainPerceptronAlgorithm lr2 n2
         (snd (trainPerceptronAlgorithm lr1 n1 (store_of d [] g))))
  = train d (advance g 3) lr2 n2.
Proof.
  intros Hne HF. unfold train.
  destruct (train_init_data d [] g Hne HF) as (b0 & Hb0).
  destruct (train_store_shape (store_of d [] g) lr1 n1) as (HX & Hy & H).
  rewrite Hb0 in H. destruct H as (Hg & _).
  apply train_agree; assumption.
Qed.

(** X9.  On a non-empty dataset of points of dimension 2, the lines of
    [n] epochs are the first [n] lines of [n + m] epochs. *)
Theorem train_prefix (d : dataset) (g : generator) (lr : float) (n m : Z) :
  d <> [] -> dim 2 d -> (0 <= n)%Z -> (0 <= m)%Z ->
  exists l1 l2,
    train d g lr n = Ret l1 /\
    train d g lr (n + m) = Ret (l1 ++ l2) /\
    length l2 = Z.to_nat m.
Proof.
  intros Hne Hd Hn Hm.
  destruct (training_run d g lr Hne Hd) as (wb0 & _ & _ & Htr).
  unfold train. rewrite !Htr. simpl fst.
  rewrite Z2Nat.inj_add, seq_app, map_app by assumption.
  do 2 eexists. split; [reflexivity|]. split; [reflexivity|].
  rewrite length_map, length_seq. reflexivity.
Qed.

(** X10.  When the bias is NaN, or the entry of [np.matmul] is NaN, or their
    sum is NaN, [prediction] returns 0: the test [t >= 0] of
    [stepFunction] is false on NaN. *)
Theorem prediction_nan (X W : list float) (b : float) :
  length X = length W ->
  is_nan b = true \/ is_nan (kernel X W) = true \/
  is_nan (kernel X W + b) = true ->
  prediction X W b = Ret 0%Z.
Proof.
  intros HL Hn. rewrite prediction_matching by exact HL.
  unfold spec_predict. fold (stepFunction (kernel X W + b)).
  rewrite stepFunction_nan; [reflexivity|].
  destruct Hn as [Hn|[Hn|Hn]]; auto using add_nan_r, add_nan_l.
Qed.

Lemma update01_nan_bias lr W b pl :
  is_nan b = true -> is_nan (snd (update01 lr (W, b) pl)) = true.
Proof.
  intro H. destruct pl as [p l]. unfold update01.
  destruct (_ =? 1); [|destruct (_ =? -1)]; simpl;
    auto using add_nan_l, sub_nan_l.
Qed.

Lemma body_bias lr i b s b' :
  fst (perceptronStep_body lr i b s) = Ret b' ->
  b' = b \/ b' = b + lr \/ b' = b - lr.
Proof.
  destruct s as [X y W g].
  unfold perceptronStep_body, call_prediction, iadd_W, isub_W, bind, get_X,
    get_y, read_W, lift, get_W, set_W, ret, with_W.
  simpl.
  destruct (index X i) as [p|e] eqn:HX; simpl; [|discriminate].
  destruct (prediction p W b) as [yh|e]; simpl; [|discriminate].
  destruct (index y i) as [l|e] eqn:Hy; simpl; [|discriminate].
  destruct (l - float_of_int yh =? 1); simpl;
    repeat (rewrite ?HX, ?Hy; simpl).
  2: destruct (l - float_of_int yh =? -1); simpl.
  all: destruct W as [|w0 [|w1 W]], p as [|x0 [|x1 p]]; simpl;
    repeat (rewrite ?HX; simpl);
    intro H; inversion H; auto.
Qed.

Lemma for_each_nan_bias lr idx : forall b s b',
  is_nan b = true ->
  fst (for_each idx (perceptronStep_body lr) b s) = Ret b' ->
  is_nan b' = true.
Proof.
  induction idx as [|i idx IH]; intros b s b' Hn; simpl.
  - intro H. inversion H; subst. exact Hn.
  - unfold bind.
    pose proof (body_bias lr i b s) as Hb.
    destruct (perceptronStep_body lr i b s) as [[b1|e] s1]; simpl in *;
      [|discriminate].
    apply IH.
    destruct (Hb b1 eq_refl) as [->|[->| ->]];
      auto using add_nan_l, sub_nan_l.
Qed.

(** X11.  A NaN bias is never repaired: whenever [step] returns from a NaN
    bias, the bias it returns is NaN. *)
Theorem step_nan_bias (d : dataset) (W W' : list float) (b b' lr : float) :
  is_nan b = true -> step d W b lr = Ret (W', b') -> is_nan b' = true.
Proof.
  intros Hn. unfold step. rewrite perceptronStep_loop.
  pose proof (for_each_nan_bias lr
                (seq 0 (length (arrX (store_of d W (fixed_gen 0))))) b
                (store_of d W (fixed_gen 0))) as Hf.
  destruct (for_each _ _ _ _) as [[b1|e] s1]; simpl in *; [|discriminate].
  intro H. inversion H; subst. apply (Hf b'); auto.
Qed.

(** ** The training loop and the generator *)

Lemma blind_boundary_line b : gen_blind (boundary_line b).
Proof.
  unfold boundary_line.
  repeat (apply blind_bind; [apply blind_store_ops | intro]).
  apply blind_ret.
Qed.

Lemma blind_train_loop n lr : forall b acc, gen_blind (train_loop n lr b acc).
Proof.
  induction n as [|n IH]; intros b acc; simpl.
  - apply blind_ret.
  - apply blind_bind; [apply blind_perceptronStep | intro Wb].
    apply blind_bind; [apply blind_boundary_line | intro l]. apply IH.
Qed.

Lemma step_on_store d W g b lr :
  fst (perceptronStep b lr (store_of d W g)) = step d W b lr.
Proof.
  unfold step.
  change (store_of d W g) with (with_gen g (store_of d W (fixed_gen 0))).
  rewrite blind_perceptronStep. reflexivity.
Qed.

(** X12.  The result of [train] depends on the generator through its next
    three draws only. *)
Theorem train_three_draws (d : dataset) (g g' : generator) (lr : float)
  (n : Z) :
  drawn g 0 = drawn g' 0 -> drawn g 1 = drawn g' 1 ->
  drawn g 2 = drawn g' 2 ->
  train d g lr n = train d g' lr n.
Proof.
  intros H0 H1 H2. unfold train, trainPerceptronAlgorithm, bind.
  destruct (train_init (store_of d [] g)) as [[b0|e] s0] eqn:E;
    destruct (train_init (store_of d [] g')) as [[b1|e1] s1] eqn:E'.
  - apply train_init_inv in E as (c & xm & Hc & Hm & -> & ->).
    apply train_init_inv in E' as (c' & xm' & Hc' & Hm' & -> & ->).
    simpl in *. rewrite Hc in Hc'. inversion Hc'; subst c'.
    rewrite Hm in Hm'. inversion Hm'; subst xm'.
    rewrite <- H0, <- H1, <- H2.
    change (mkStore (map fst d) (map snd d) [drawn g 0; drawn g 1]
              (advance g' 3))
      with (with_gen (advance g' 3)
              (mkStore (map fst d) (map snd d) [drawn g 0; drawn g 1]
                 (advance g 3))).
    rewrite blind_train_loop. reflexivity.
  - exfalso. revert E E'.
    unfold train_init, bind, read_X, lift, rand, bind_W, ret. simpl arrX.
    destruct (column 0 (map fst d)) as [c0|e0]; [|discriminate].
    destruct (py_min c0) as [m0|e0]; [|discriminate].
    destruct (py_max c0) as [M0|e0]; [|discriminate].
    destruct (column 1 (map fst d)) as [c1|e0]; [|discriminate].
    destruct (py_min c1) as [m1|e0]; [|discriminate].
    destruct (py_max c1) as [M1|e0]; discriminate.
  - exfalso. revert E' E.
    unfold train_init, bind, read_X, lift, rand, bind_W, ret. simpl arrX.
    destruct (column 0 (map fst d)) as [c0|e0]; [|discriminate].
    destruct (py_min c0) as [m0|e0]; [|discriminate].
    destruct (py_max c0) as [M0|e0]; [|discriminate].
    destruct (column 1 (map fst d)) as [c1|e0]; [|discriminate].
    destruct (py_min c1) as [m1|e0]; [|discriminate].
    destruct (py_max c1) as [M1|e0]; discriminate.
  - simpl. f_equal. revert E E'.
    unfold train_init, bind, read_X, lift, rand, bind_W, ret. simpl arrX.
    destruct (column 0 (map fst d)) as [c0|e0]; [|congruence].
    destruct (py_min c0) as [m0|e0]; [|congruence].
    destruct (py_max c0) as [M0|e0]; [|congruence].
    destruct (column 1 (map fst d)) as [c1|e0]; [|congruence].
    destruct (py_min c1) as [m1|e0]; [|congruence].
    destruct (py_max c1) as [M1|e0]; [discriminate|congruence].
Qed.

Lemma train_first_epoch d g lr n b0 :
  (0 < n)%Z -> d <> [] ->
  Forall (fun pl => (2 <= length (fst pl))%nat) d ->
  fst (train_init (store_of d [] g)) = Ret b0 ->
  forall e, step d [drawn g 0; drawn g 1] b0 lr = Raise e ->
            train d g lr n = Raise e.
Proof.
  intros Hn Hne HF Hb0 e He.
  unfold train, trainPerceptronAlgorithm, bind.
  destruct (train_init (store_of d [] g)) as [[b|e0] s0] eqn:E;
    simpl in Hb0; [|discriminate].
  inversion Hb0; subst b.
  apply train_init_inv in E as (c & xm & _ & _ & _ & ->). simpl arrX.
  simpl arry. simpl gen.
  destruct (Z.to_nat n) as [|k] eqn:En; [lia|].
  cbn [train_loop]. unfold bind.
  pose proof (step_on_store d [drawn g 0; drawn g 1] (advance g 3) b0 lr)
    as Hs.
  unfold store_of in Hs. 
  destruct (perceptronStep b0 lr _) as [[Wb|e1] s1]; simpl in Hs.
  - congruence.
  - rewrite He in Hs. inversion Hs. reflexivity.
Qed.

(** X13.  For at least one epoch, [train] returns exactly on the
    non-empty datasets whose points all have dimension 2; on a non-empty
    dataset whose points have at least two coordinates, not all of them
    exactly two, it raises the [ValueError] of [np.matmul]. *)
Theorem train_returns_iff (d : dataset) (g : generator) (lr : float) (n : Z) :
  (0 < n)%Z ->
  ((exists lines, train d g lr n = Ret lines) <-> d <> [] /\ dim 2 d) /\
  (d <> [] -> Forall (fun pl => (2 <= length (fst pl))%nat) d ->
   ~ dim 2 d -> train d g lr n = Raise ValueError_matmul).
Proof.
  intro Hn.
  assert (Hraise : d <> [] ->
            Forall (fun pl => (2 <= length (fst pl))%nat) d ->
            ~ dim 2 d -> train d g lr n = Raise ValueError_matmul).
  { intros Hne HF Hnd.
    destruct (train_init_data d [] g Hne HF) as (b0 & Hb0).
    destruct (step_accepts d [drawn g 0; drawn g 1] b0 lr (le_n 2))
      as (Hiff & Hexn).
    destruct (step d [drawn g 0; drawn g 1] b0 lr) as [r|e] eqn:Es.
    - exfalso. apply Hnd. apply Hiff. eauto.
    - rewrite (Hexn e eq_refl) in Es.
      eapply train_first_epoch; eauto. }
  split; [split|exact Hraise].
  - intros (lines & Hl).
    assert (Hne : d <> []).
    { intros ->. discriminate. }
    assert (HF : Forall (fun pl => (2 <= length (fst pl))%nat) d).
    { destruct (rows_dec 1 (map fst d)) as [H1|H1].
      - rewrite Forall_map in H1. eapply Forall_impl; [|exact H1].
        simpl. intros; lia.
      - exfalso. unfold train in Hl.
        rewrite (train_init_fails d [] g lr n) in Hl.
        + destruct d; [congruence | discriminate].
        + right. rewrite Exists_map in H1.
          eapply Exists_impl; [|exact H1]. simpl. intros; lia. }
    split; [exact Hne|].
    destruct (Forall_dec (fun pl : list float * float =>
                            length (fst pl) = 2%nat)
                (fun pl => Nat.eq_dec (length (fst pl)) 2) d) as [Hd|Hd];
      [exact Hd|].
    rewrite (Hraise Hne HF Hd) in Hl. discriminate.
  - intros (Hne & Hd).
    destruct (training_lines d g lr n Hne Hd) as (lines & Hl & _). eauto.
Qed.

(** X14.  For a number of epochs that is zero or negative, [train]
    returns exactly on the non-empty datasets whose points have at least
    two coordinates (a third one goes unnoticed), and what it returns is
    the empty list. *)
Theorem train_no_epochs (d : dataset) (g : generator) (lr : float) (n : Z) :
  (n <= 0)%Z ->
  ((exists lines, train d g lr n = Ret lines) <->
   d <> [] /\ Forall (fun pl => (2 <= length (fst pl))%nat) d) /\
  (forall lines, train d g lr n = Ret lines -> lines = []).
Proof.
  intro Hn.
  assert (E : Z.to_nat n = 0%nat) by lia.
  assert (Ht : train d g lr n
               = match initial d g with
                 | Ret _ => Ret []
                 | Raise e => Raise e
                 end).
  { unfold train, initial, after_epochs, epochs_run, trainPerceptronAlgorithm,
      bind, steps, read_W, ret. rewrite E.
    destruct (train_init (store_of d [] g)) as [[b0|e] s0]; reflexivity. }
  rewrite Ht. split.
  - rewrite <- (train_initialises d g).
    destruct (initial d g) as [wb|e]; split;
      intros (x & Hx); try discriminate; eauto.
  - intros lines. destruct (initial d g); intro H; inversion H; reflexivity.
Qed.

End Cell.

(** * Runs

    The statements above at concrete arrays, with [rounded_dot] for the
    inner product.  The operands are such that every product and every
    sum of products is exactly representable, so that fusing or reordering
    changes nothing, or such that the result does not depend on the inner
    product at all. *)

(** ** The claims at concrete inputs *)

(** C1, as amended.  On the dataset [([1,1], 1), ([-1,-1], 0)] with weights
    [0, 0], bias 0 and learning rate 0.1, one call of [step] returns the
    weights [0.1, 0.1] and the bias -0.1: the first point is predicted as
    labelled, the second is a false positive, so 0.1 times its coordinates
    -1 is subtracted from each weight and 0.1 is subtracted from the
    bias. *)
Theorem step_scenario :
  step rounded_dot [([1; 1], 1); ([-1; -1], 0)] [0; 0] 0 0.1
  = Ret ([0.1; 0.1], -0.1).
Proof. vm_compute. reflexivity. Qed.

(** C1 as stated fails: the bias returned in that scenario is not 0.1. *)
Lemma step_scenario_bias_sign :
  step rounded_dot [([1; 1], 1); ([-1; -1], 0)] [0; 0] 0 0.1
  <> Ret ([0.1; 0.1], 0.1).
Proof.
  intro H.
  apply (f_equal (fun o => match o with
                           | Ret (_, b) => b <? 0
                           | Raise _ => false
                           end)) in H.
  vm_compute in H. discriminate.
Qed.

(** The rule at work: a false positive followed by a false negative, each
    moving both weights and the bias; and a dataset whose two points are
    predicted as labelled, which leaves the weights and the bias as they
    were. *)
Lemma step_rule_both_updates :
  (2 <= length [1; -1]%float)%nat /\
  dim (length [1; -1]%float) [([2; 1], 0); ([1; 3], 1)] /\
  step rounded_dot [([2; 1], 0); ([1; 3], 1)] [1; -1] 0.5 0.5
  = Ret ([0.5; 0], 0.5) /\
  all_correct rounded_dot [([2; 1], 1); ([-3; 1], 0)] [1; -1] 0.5 /\
  step rounded_dot [([2; 1], 1); ([-3; 1], 0)] [1; -1] 0.5 0.5
  = Ret ([1; -1], 0.5).
Proof.
  assert (H2 : (2 <= length [1; -1]%float)%nat) by (simpl; lia).
  assert (Hd : dim (length [1; -1]%float) [([2; 1], 0); ([1; 3], 1)])
    by (repeat constructor).
  assert (Hd' : dim (length [1; -1]%float) [([2; 1], 1); ([-3; 1], 0)])
    by (repeat constructor).
  assert (Hc : all_correct rounded_dot [([2; 1], 1); ([-3; 1], 0)] [1; -1]
                 0.5) by (repeat constructor).
  split; [exact H2 | split; [exact Hd | split; [| split; [exact Hc |]]]].
  - destruct (step_rule rounded_dot [([2; 1], 0); ([1; 3], 1)] [1; -1] 0.5
                0.5 H2 Hd) as (H & _).
    rewrite H. vm_compute. reflexivity.
  - apply (step_rule rounded_dot [([2; 1], 1); ([-3; 1], 0)] [1; -1] 0.5 0.5
             H2 Hd'). exact Hc.
Defined.

(** C2 as stated fails: on a misclassified point of dimension 3, with
    weights of dimension 3, [step] does not return what the rule applied to
    every dimension gives (the third weight stays 0 instead of -0.1). *)
Lemma step_every_dimension_fails :
  step rounded_dot [([1; 1; 1], 0)] [0; 0; 0] 0 0.1
  <> Ret (spec_step rounded_dot [([1; 1; 1], 0)] [0; 0; 0] 0 0.1).
Proof.
  intro H.
  apply (f_equal (fun o => match o with
                           | Ret (w, _) => nth 2 w 0 <? 0
                           | Raise _ => false
                           end)) in H.
  vm_compute in H. discriminate.
Qed.

(** A run whose first epoch ends with both weights zero. *)
Lemma zero_weight_epoch_run :
  exists lines,
    train rounded_dot [([1; 1], 0)] (fixed_gen 0.5) 0.5 2 = Ret lines /\
    nth_error lines 0 = Some ((- 0) / 0, (- 1) / 0).
Proof.
  destruct (zero_weight_epoch rounded_dot [([1; 1], 0)] (fixed_gen 0.5) 0.5
              2 0 0 0 1) as (lines & Ht & _ & Hn & _).
  - discriminate.
  - repeat constructor.
  - simpl. lia.
  - vm_compute. reflexivity.
  - reflexivity.
  - exists lines. split; [exact Ht | exact Hn].
Defined.

(** C3 as stated fails: after the first epoch of this run the weights are
    [0, 0] and the bias is 1; deriving the line raises nothing, it gives
    (NaN, -infinity), and [train] returns that line followed by the line
    of the second epoch. *)
Lemma zero_weight_line_produced :
  after_epochs rounded_dot [([1; 1], 0)] (fixed_gen 0.5) 0.5 1
  = Ret ([0; 0], 1) /\
  fst (boundary_line 1 (store_of [([1; 1], 0)] [0; 0] (fixed_gen 0.5)))
  = Ret (nan, neg_infinity) /\
  fst (boundary_line 1 (store_of [([1; 1], 0)] [0; 0] (fixed_gen 0.5)))
  <> Raise ZeroDivisionError /\
  train rounded_dot [([1; 1], 0)] (fixed_gen 0.5) 0.5 2
  = Ret [(nan, neg_infinity); (-1, 1)].
Proof.
  split; [vm_compute; reflexivity|].
  split; [vm_compute; reflexivity|].
  split; [discriminate|].
  vm_compute; reflexivity.
Qed.

(** A point of dimension 3 against weights of dimension 2. *)
Lemma shape_mismatch_three_dimensions :
  prediction rounded_dot [1; 1; 1] [0; 0] 0 = Raise ValueError_matmul /\
  step rounded_dot [([1; 1; 1], 0)] [0; 0] 0 0.1 = Raise ValueError_matmul /\
  train rounded_dot [([1; 1; 1], 0)] (fixed_gen 0.5) 0.1 1
  = Raise ValueError_matmul.
Proof.
  destruct (shape_mismatch_raised rounded_dot) as (_ & Hp & Hs & Ht).
  split; [apply Hp; simpl; lia|]. split.
  - unfold step.
    rewrite (Hs (store_of [([1; 1; 1], 0)] [0; 0] (fixed_gen 0)) 0 0.1 0%nat
               [1; 1; 1] 0
               (store_of [([1; 1; 1], 0)] [0; 0] (fixed_gen 0)));
      [reflexivity | reflexivity | reflexivity | simpl; lia].
  - unfold train.
    erewrite (Ht (store_of [([1; 1; 1], 0)] [] (fixed_gen 0.5)) 0.1 1%Z _ _
                [1; 1; 1]);
      [reflexivity | vm_compute; reflexivity | reflexivity | simpl; lia | lia].
Defined.

(** Initialisation on two datasets of one point each. *)
Lemma initial_draws_two_datasets :
  initial rounded_dot [([1; 0], 1)] (fixed_gen 0.5) = Ret ([0.5; 0.5], 1.5) /\
  initial rounded_dot [([2; 0], 1)] (fixed_gen 0.5) = Ret ([0.5; 0.5], 2.5) /\
  [0.5; 0.5] = [0.5; 0.5].
Proof.
  assert (H1 : initial rounded_dot [([1; 0], 1)] (fixed_gen 0.5)
               = Ret ([0.5; 0.5], 1.5)) by (vm_compute; reflexivity).
  assert (H2 : initial rounded_dot [([2; 0], 1)] (fixed_gen 0.5)
               = Ret ([0.5; 0.5], 2.5)) by (vm_compute; reflexivity).
  split; [exact H1 | split; [exact H2 |]].
  destruct (initial_draws rounded_dot _ _ _ _ _ _ _ H1 H2) as (_ & H & _).
  exact H.
Defined.

(** C5 as stated fails: with the same generator, the datasets [([1,0], 1)]
    and [([2,0], 1)] give the initial biases 1.5 and 2.5. *)
Lemma initial_bias_follows_data :
  initial rounded_dot [([1; 0], 1)] (fixed_gen 0.5) = Ret ([0.5; 0.5], 1.5) /\
  initial rounded_dot [([2; 0], 1)] (fixed_gen 0.5) = Ret ([0.5; 0.5], 2.5) /\
  initial rounded_dot [([1; 0], 1)] (fixed_gen 0.5)
  <> initial rounded_dot [([2; 0], 1)] (fixed_gen 0.5).
Proof.
  split; [vm_compute; reflexivity|]. split; [vm_compute; reflexivity|].
  intro H.
  apply (f_equal (fun o => match o with
                           | Ret (_, b) => b <? 2
                           | Raise _ => false
                           end)) in H.
  vm_compute in H. discriminate.
Qed.

(** Two epochs on a dataset of one point. *)
Lemma train_epochs_two :
  exists lines,
    train rounded_dot [([1; 1], 0)] (fixed_gen 0.5) 0.5 2 = Ret lines /\
    length lines = 2%nat.
Proof.
  destruct (train_epochs rounded_dot [([1; 1], 0)] (fixed_gen 0.5) 0.5 2)
    as (lines & Ht & Hl & _).
  - discriminate.
  - repeat constructor.
  - exists lines. split; [exact Ht | exact Hl].
Defined.

(** C6 as stated fails: on the dataset without points, [train] with
    [num_epochs = 0] raises the [ValueError] of [min] on an empty column
    and returns no sequence; on a point of dimension 3 its first epoch
    raises the [ValueError] of [np.matmul]. *)
Lemma train_empty_dataset :
  train rounded_dot [] (fixed_gen 0.5) 0.1 0 = Raise ValueError_empty /\
  train rounded_dot [] (fixed_gen 0.5) 0.1 0 <> Ret [] /\
  train rounded_dot [([1; 1; 1], 0)] (fixed_gen 0.5) 0.1 1
  = Raise ValueError_matmul.
Proof.
  split; [reflexivity|]. split; [discriminate|]. vm_compute. reflexivity.
Qed.



(** The same step under two different generators. *)
Lemma step_deterministic_two_generators :
  fst (perceptronStep rounded_dot 0 0.1
         (store_of [([-1; -1], 0)] [0; 0] (fixed_gen 0.25)))
  = fst (perceptronStep rounded_dot 0 0.1
           (store_of [([-1; -1], 0)] [0; 0] (fixed_gen 0.75))).
Proof.
  apply (step_deterministic rounded_dot
           (store_of [([-1; -1], 0)] [0; 0] (fixed_gen 0.25))
           (store_of [([-1; -1], 0)] [0; 0] (fixed_gen 0.75)) 0 0.1
           eq_refl eq_refl eq_refl).
Defined.

(** A misclassified point of dimension 3 whose third coordinate is 1. *)
Lemma step_writes_two_entries_of_three :
  (2 <= 2)%nat /\
  nth_error
    (arrW (snd (perceptronStep rounded_dot 0 0.1
                  (store_of [([1; 1; 1], 0)] [0; 0; 0] (fixed_gen 0)))))
    2
  = nth_error [0; 0; 0] 2.
Proof.
  split; [lia|].
  apply (step_writes_two_entries rounded_dot
           (store_of [([1; 1; 1], 0)] [0; 0; 0] (fixed_gen 0)) 0 0.1 2).
  lia.
Defined.

(** ** The further properties at concrete inputs *)

Lemma step_returns_iff_example :
  (exists r,
      fst (perceptronStep rounded_dot 0 0.1
             (mkStore [[1; 1]; [2; 3]] [1; 0; 1] [0; 0] (fixed_gen 0)))
      = Ret r)
  <-> Forall (fun p => length p = length [0; 0]%float) [[1; 1]; [2; 3]].
Proof.
  apply (step_returns_iff rounded_dot
           (mkStore [[1; 1]; [2; 3]] [1; 0; 1] [0; 0] (fixed_gen 0)) 0 0.1);
    simpl; lia.
Defined.

Lemma step_labels_short_example :
  step rounded_dot [([-1; -1], 0)] [0; 0] 0 0.1 = Ret ([0.1; 0.1], -0.1) /\
  perceptronStep rounded_dot 0 0.1
    (mkStore [[-1; -1]; [1; 1]] [0] [0; 0] (fixed_gen 0))
  = (Raise IndexError,
     mkStore [[-1; -1]; [1; 1]] [0] [0.1; 0.1] (fixed_gen 0)).
Proof.
  assert (Hs : step rounded_dot [([-1; -1], 0)] [0; 0] 0 0.1
               = Ret ([0.1; 0.1], -0.1)) by (vm_compute; reflexivity).
  split; [exact Hs|].
  exact (step_labels_short rounded_dot [([-1; -1], 0)] [1; 1] [] [0; 0]
           [0.1; 0.1] (fixed_gen 0) 0 (-0.1) 0.1 Hs eq_refl).
Defined.

Lemma step_single_row_example :
  perceptronStep rounded_dot (-1) 0.1
    (store_of [([1], 0); ([2], 1)] [0] (fixed_gen 0))
  = (Raise IndexError,
     store_of [([1], 0); ([2], 1)] [0 + 2 * 0.1] (fixed_gen 0)).
Proof.
  assert (Hd : dim 1 [([1], 0)]) by (repeat constructor).
  assert (Hc : all_correct rounded_dot [([1], 0)] [0] (-1))
    by (repeat constructor).
  apply (step_single_row rounded_dot [([1], 0)] [] 2 1 0 (-1) 0.1
           (fixed_gen 0) Hd Hc).
  reflexivity.
Defined.

Lemma initial_bias_from_point_example :
  exists p l, In (p, l) [([1; 0], 1); ([3; 0], 0)]
              /\ 3.5 = drawn (fixed_gen 0.5) 2 + nth 0 p 0.
Proof.
  apply (initial_bias_from_point rounded_dot [([1; 0], 1); ([3; 0], 0)]
           (fixed_gen 0.5) [0.5; 0.5] 3.5).
  vm_compute. reflexivity.
Defined.

Lemma train_rejects_one_column :
  train rounded_dot [([1], 1); ([2], 0)] (fixed_gen 0.5) 0.1 3
  = Raise IndexError.
Proof.
  unfold train.
  rewrite (train_rejects rounded_dot [([1], 1); ([2], 0)] []
             (fixed_gen 0.5) 0.1 3); [reflexivity|].
  right. constructor. simpl. lia.
Defined.

Lemma train_prefix_example :
  exists l1 l2,
    train rounded_dot [([1; 1], 0)] (fixed_gen 0.5) 0.5 1 = Ret l1 /\
    train rounded_dot [([1; 1], 0)] (fixed_gen 0.5) 0.5 (1 + 1)
    = Ret (l1 ++ l2) /\
    length l2 = Z.to_nat 1.
Proof.
  apply (train_prefix rounded_dot [([1; 1], 0)] (fixed_gen 0.5) 0.5 1 1);
    [discriminate | repeat constructor | lia | lia].
Defined.

Lemma train_twice_example :
  fst (trainPerceptronAlgorithm rounded_dot 0.5 2
         (snd (trainPerceptronAlgorithm rounded_dot 0.5 1
                 (store_of [([1; 1], 0)] [] (fixed_gen 0.5)))))
  = train rounded_dot [([1; 1], 0)] (advance (fixed_gen 0.5) 3) 0.5 2.
Proof.
  apply (train_twice rounded_dot [([1; 1], 0)] (fixed_gen 0.5) 0.5 0.5 1 2);
    [discriminate | repeat constructor].
Defined.

Lemma prediction_nan_example :
  is_nan nan = true /\ prediction rounded_dot [1; 1] [1; 1] nan = Ret 0%Z.
Proof.
  split; [reflexivity|].
  apply (prediction_nan rounded_dot [1; 1] [1; 1] nan eq_refl).
  left. reflexivity.
Defined.

Lemma step_nan_bias_example :
  is_nan nan = true /\
  step rounded_dot [([1; 1], 1)] [0; 0] nan 0.1 = Ret ([0.1; 0.1], nan) /\
  is_nan nan = true.
Proof.
  assert (H : step rounded_dot [([1; 1], 1)] [0; 0] nan 0.1
              = Ret ([0.1; 0.1], nan)) by (vm_compute; reflexivity).
  split; [reflexivity | split; [exact H|]].
  apply (step_nan_bias rounded_dot [([1; 1], 1)] [0; 0] [0.1; 0.1] nan nan
           0.1 eq_refl H).
Defined.

Lemma train_three_draws_example :
  train rounded_dot [([1; 1], 0)] (fixed_gen 0.5) 0.5 2
  = train rounded_dot [([1; 1], 0)]
      (mkGen (fun k => if Nat.ltb k 3 then 0.5 else 0.25) 0) 0.5 2.
Proof.
  apply (train_three_draws rounded_dot [([1; 1], 0)] (fixed_gen 0.5)
           (mkGen (fun k => if Nat.ltb k 3 then 0.5 else 0.25) 0) 0.5 2);
    reflexivity.
Defined.

Lemma train_returns_iff_example :
  (exists lines,
      train rounded_dot [([1; 1], 0)] (fixed_gen 0.5) 0.5 2 = Ret lines)
  <-> [([1; 1], 0)] <> [] /\ dim 2 [([1; 1], 0)].
Proof.
  apply (train_returns_iff rounded_dot [([1; 1], 0)] (fixed_gen 0.5) 0.5 2).
  lia.
Defined.

Lemma train_no_epochs_three_columns :
  train rounded_dot [([1; 2; 3], 1)] (fixed_gen 0.5) 0.1 (-1) = Ret [].
Proof.
  destruct (train_no_epochs rounded_dot [([1; 2; 3], 1)] (fixed_gen 0.5)
              0.1 (-1)) as (Hiff & Hnil); [lia|].
  destruct (proj2 Hiff) as (lines & Hl).
  - split; [discriminate | repeat constructor; simpl; lia].
  - rewrite Hl. f_equal. apply Hnil. exact Hl.
Defined.
